(** * A shallow embedding of the memecoin price-alert bot (src/main.py)

    The bot polls a price feed, evaluates threshold conditions against the
    fetched price and fans an alert out over the configured channels,
    rate-limited by a cooldown.

    Conventions of the embedding:
    - a Python number is a [number]: the rational an [int] or a finite
      [float] denotes, an infinity or NaN; arithmetic on floats rounds to
      the nearest binary64 value ([round_double]), comparisons are exact;
      readings of the clock are finite and held as [Q], [int] parameters
      are [Z];
    - values decoded from JSON are the tagged union [pyval], dictionaries
      being finite maps keyed by strings;
    - every call that leaves the process (HTTP, SMTP, the clock, the sound
      player, signal delivery) reads its outcome from an [Env] oracle and
      leaves an [event] in the trace of the [State];
    - a Python exception is the [Raise] outcome of the monad [M]. *)

From Stdlib Require Import ZArith QArith Qround Qpower Qabs Lqa.
From Stdlib Require Import String Ascii List Bool Lia.
From stdpp Require Import base option gmap strings list fin_maps.

Local Open Scope string_scope.
Set Warnings "-register-all".

(** ** Numbers *)

(** An [int] or a finite [float] is the rational it denotes; a [float] can
    also be an infinity or NaN. *)
Inductive number : Type :=
  | Fin (q : Q)
  | Inf (negative : bool)
  | NaN.

Coercion Fin : Q >-> number.

(** [x <= y]. Python compares an [int] with a [float] by value, without
    rounding the [int]; every comparison with NaN is false. *)
Definition num_le (x y : number) : bool :=
  match x, y with
  | NaN, _ => false
  | _, NaN => false
  | Inf true, _ => true
  | _, Inf false => true
  | Inf false, _ => false
  | _, Inf true => false
  | Fin a, Fin b => Qle_bool a b
  end.

(** [x == y]: NaN is equal to nothing, itself included. *)
Definition num_eq (x y : number) : bool := num_le x y && num_le y x.

(** The nearest integer, ties to even. *)
Definition rne (q : Q) : Z :=
  let f := Qfloor q in
  match Qcompare (q - inject_Z f) (1 # 2) with
  | Lt => f
  | Eq => if Z.even f then f else (f + 1)%Z
  | Gt => (f + 1)%Z
  end.

(** The [e] with [2 ^ e <= q < 2 ^ (e + 1)], for [0 < q]. *)
Definition floor_log2 (q : Q) : Z :=
  let e0 := (Z.log2 (Qnum q) - Z.log2 (Zpos (Qden q)))%Z in
  if Qle_bool (2 ^ e0)%Q q then e0 else (e0 - 1)%Z.

(** The exponent of the unit in the last place of a binary64 value near
    [q]: 53 significant bits, subnormals below [2 ^ -1022]. *)
Definition ulp_exp (q : Q) : Z := Z.max (floor_log2 (Qabs q) - 52) (-1074).

(** The multiple of [2 ^ s] nearest to [q], ties to even. *)
Definition on_grid (s : Z) (q : Q) : Q := (inject_Z (rne (q / 2 ^ s)) * 2 ^ s)%Q.

Definition round_grid (q : Q) : Q :=
  if Qeq_bool q 0 then 0%Q else Qred (on_grid (ulp_exp q) q).

(** The binary64 value of a real number: round to nearest, ties to even;
    a result of magnitude [2 ^ 1024] or more is an infinity. *)
Definition round_double (q : Q) : number :=
  let r := round_grid q in
  if Qle_bool (2 ^ 1024)%Q (Qabs r) then Inf (negb (Qle_bool 0 r)) else Fin r.

(** [x - y] on finite floats. *)
Definition float_sub (x y : Q) : number := round_double (x - y).

Arguments round_double : simpl never.
Arguments float_sub : simpl never.

(** ** Python values and exceptions *)

Inductive exn : Type :=
  | ValueError
  | TypeError
  | KeyError
  | AttributeError
  | FileNotFoundError
  | JSONDecodeError
  | Timeout
  | ConnectionError
  | HTTPError (status : Z)
  | SMTPException
  | CalledProcessError
  | OSError
  | OverflowError.

(** [requests.exceptions.RequestException] and its subclasses (the decoding
    error of [response.json] is one of them). *)
Definition is_RequestException (e : exn) : bool :=
  match e with
  | Timeout | ConnectionError | HTTPError _ | JSONDecodeError => true
  | _ => false
  end.

(** [subprocess.SubprocessError] and its subclasses. *)
Definition is_SubprocessError (e : exn) : bool :=
  match e with
  | CalledProcessError => true
  | _ => false
  end.

Inductive pyval : Type :=
  | PNone
  | PBool (b : bool)
  | PNum (x : number)
  | PStr (s : string)
  | PList (l : list pyval)
  | PDict (d : gmap string pyval).
Arguments PNum x%_Q.

(** Truth value of an object, as used by [all] and [not]. *)
Definition truthy (v : pyval) : bool :=
  match v with
  | PNone => false
  | PBool b => b
  | PNum (Fin q) => negb (Qeq_bool q 0)
  | PNum (Inf _) | PNum NaN => true
  | PStr s => negb (String.eqb s "")
  | PList l => match l with [] => false | _ => true end
  | PDict d => negb (bool_decide (d = ∅))
  end.

(** [format(v, ".8f")] and [format(v, ",.2f")]: defined on numbers ([bool]
    is a subclass of [int]). An [int] is converted to [float] for the
    rendering, which raises [OverflowError] when it is out of the range of
    a double; infinities and NaN are rendered. [None], lists and dicts
    raise [TypeError], a string raises [ValueError]. The rendered text is
    not modelled, only the number that is rendered. *)
Definition format_f (v : pyval) : exn + number :=
  match v with
  | PNum (Fin q) =>
      match round_double q with
      | Inf _ => inl OverflowError
      | _ => inr (Fin q)
      end
  | PNum x => inr x
  | PBool b => inr (Fin (if b then 1%Q else 0%Q))
  | PStr _ => inl ValueError
  | PNone | PList _ | PDict _ => inl TypeError
  end.

(** [key in v] for a string [key]. *)
Definition py_in (key : string) (v : pyval) : exn + bool :=
  match v with
  | PDict d => inr (bool_decide (is_Some (d !! key)))
  | PList l =>
      inr (existsb (fun x => match x with PStr s => String.eqb s key | _ => false end) l)
  | PStr s => inr (match String.index 0 key s with Some _ => true | None => false end)
  | PNone | PBool _ | PNum _ => inl TypeError
  end.

(** [v[key]] for a string [key]. *)
Definition py_getitem (v : pyval) (key : string) : exn + pyval :=
  match v with
  | PDict d => match d !! key with Some x => inr x | None => inl KeyError end
  | _ => inl TypeError
  end.

(** [v.get(key)]: only dictionaries have the method. *)
Definition py_get (v : pyval) (key : string) : exn + pyval :=
  match v with
  | PDict d => inr (default PNone (d !! key))
  | _ => inl AttributeError
  end.

(** [v.values()] *)
Definition py_values (v : pyval) : exn + list pyval :=
  match v with
  | PDict d => inr (snd <$> map_to_list d)
  | _ => inl AttributeError
  end.

(** ** PriceCondition *)

Record PriceCondition : Type := mkPriceCondition {
  target_price : number;
  condition_type : string
}.
Arguments mkPriceCondition target_price%_Q condition_type%_string.

Section Builtins.

(** The parser [float] applies to a string: [None] when the text is not a
    number. The grammar of the runtime is not modelled. *)
Variable float_of_string : string -> option number.

(** [float(x)]: an [int] is rounded to the nearest double and refused with
    [OverflowError] when that is out of range; a [float] is returned as it
    is; a string is parsed; [None], lists and dicts are refused. *)
Definition float (x : pyval) : exn + number :=
  match x with
  | PNum (Fin q) =>
      match round_double q with
      | Inf _ => inl OverflowError
      | r => inr r
      end
  | PNum x => inr x
  | PBool b => inr (Fin (if b then 1%Q else 0%Q))
  | PStr s =>
      match float_of_string s with
      | Some x => inr x
      | None => inl ValueError
      end
  | PNone | PList _ | PDict _ => inl TypeError
  end.

(** [PriceCondition.__init__]: the conversion of the target comes first. *)
Definition PriceCondition_init (target : pyval) (ctype : string)
  : exn + PriceCondition :=
  match float target with
  | inl e => inl e
  | inr target_price =>
      if negb (String.eqb ctype "above" || String.eqb ctype "below")
      then inl ValueError
      else inr {| target_price := target_price; condition_type := ctype |}
  end.

End Builtins.

(** [PriceCondition.is_met] *)
Definition is_met (c : PriceCondition) (current_price : number) : bool :=
  if String.eqb (condition_type c) "above"
  then num_le (target_price c) current_price
  else num_le current_price (target_price c).
Arguments is_met c current_price%_Q.

(** ** Events, environment and state *)

Inductive level : Type := INFO | WARNING | ERROR.

(** Market data returned by [get_current_price]: the dictionary always has
    the three keys; [volume] and [change] are [None] when the provider left
    them out. *)
Record market_data : Type := mkMarketData {
  md_price : pyval;
  md_volume : pyval;
  md_change : pyval
}.

Inductive message : Type :=
  | MsgShuttingDown
  | MsgCoinNotFound (coin : string)
  | MsgNetworkError (e : exn)
  | MsgUnexpectedError (e : exn)
  | MsgEmailNotConfigured
  | MsgEmailSent
  | MsgEmailError (e : exn)
  | MsgSoundOnlyMac
  | MsgSoundFileNotFound (file : string)
  | MsgSoundPlayed
  | MsgSoundError (e : exn)
  | MsgStarting (coin : string)
  | MsgAlertTypes (types : list string)
  | MsgMonitoring (c : PriceCondition)
  | MsgCurrentPrice (price : number) (change : pyval)
  | MsgAlertConditionMet (c : PriceCondition)
  | MsgStopped.

Inductive event : Type :=
  | Log (lvl : level) (m : message)
  | HttpGet (coin : string)
  | SmtpSend (sender receiver : pyval) (c : PriceCondition)
  | Afplay (file : string)
  | Sleep (secs : Q).

(** What [requests.get], [raise_for_status] and [response.json] produce
    together: an exception, or the decoded body. *)
Inductive http_outcome : Type :=
  | HttpRaises (e : exn)
  | HttpJson (data : pyval).

(** The world outside the process. Each oracle is indexed by the number of
    earlier calls of its kind. *)
Record Env : Type := mkEnv {
  clock : nat -> Q;                    (* k-th reading of time.time() *)
  http : nat -> http_outcome;          (* k-th price request *)
  smtp : nat -> option exn;            (* k-th SMTP session; None: sent *)
  platform_system : string;            (* platform.system() *)
  path_exists : nat -> bool;           (* os.path.exists at the k-th sound alert *)
  afplay : nat -> option exn;          (* k-th run of afplay; None: exit status 0 *)
  signal_in_fetch : nat -> bool;       (* a termination signal arrives during the k-th request *)
  signal_in_sleep : nat -> option Q    (* ... at this offset into the k-th sleep *)
}.

Record State : Type := mkState {
  last_alert_time : option Q;
  running : bool;
  trace : list event;
  clock_ix : nat;
  http_ix : nat;
  smtp_ix : nat;
  sound_ix : nat;
  sleep_ix : nat
}.

(** The attributes of [CryptoAlertBot] that never change after
    construction. *)
Record Bot : Type := mkBot {
  coin_id : string;
  conditions : list PriceCondition;
  alert_types : list string;
  cooldown_period : Z;
  check_interval : Z;
  sound_file : string;
  config_file : string;
  config : pyval
}.

(** ** The monad of the embedding: state, trace and exceptions *)

Inductive result (A : Type) : Type :=
  | Ret (a : A)
  | Raise (e : exn).
Arguments Ret {A} a.
Arguments Raise {A} e.

Definition M (A : Type) : Type := State -> result A * State.

Definition ret {A} (a : A) : M A := fun st => (Ret a, st).

Definition raise {A} (e : exn) : M A := fun st => (Raise e, st).

Definition bind {A B} (m : M A) (k : A -> M B) : M B :=
  fun st =>
    match m st with
    | (Ret a, st') => k a st'
    | (Raise e, st') => (Raise e, st')
    end.

(** [try: m except <handles>: handler] ; exceptions outside [handles]
    propagate. *)
Definition try_except {A} (m : M A) (handles : exn -> bool) (handler : exn -> M A)
  : M A :=
  fun st =>
    match m st with
    | (Ret a, st') => (Ret a, st')
    | (Raise e, st') => if handles e then handler e st' else (Raise e, st')
    end.

(** A pure computation that may raise. *)
Definition lift {A} (r : exn + A) : M A :=
  match r with
  | inl e => raise e
  | inr a => ret a
  end.

Declare Scope py_scope.
Delimit Scope py_scope with py.
Notation "x <- c1 ;; c2" := (bind c1 (fun x => c2))
  (at level 100, c1 at next level, right associativity) : py_scope.
Notation "c1 ;; c2" := (bind c1 (fun _ => c2))
  (at level 100, right associativity) : py_scope.
Local Open Scope py_scope.

Definition emit (e : event) : M unit :=
  fun st =>
    (Ret tt, {| last_alert_time := last_alert_time st; running := running st;
                trace := trace st ++ [e];
                clock_ix := clock_ix st; http_ix := http_ix st;
                smtp_ix := smtp_ix st; sound_ix := sound_ix st;
                sleep_ix := sleep_ix st |}).

Definition logging (lvl : level) (m : message) : M unit := emit (Log lvl m).

Definition set_last_alert_time (t : Q) : M unit :=
  fun st =>
    (Ret tt, {| last_alert_time := Some t; running := running st;
                trace := trace st;
                clock_ix := clock_ix st; http_ix := http_ix st;
                smtp_ix := smtp_ix st; sound_ix := sound_ix st;
                sleep_ix := sleep_ix st |}).

Definition set_running (b : bool) : M unit :=
  fun st =>
    (Ret tt, {| last_alert_time := last_alert_time st; running := b;
                trace := trace st;
                clock_ix := clock_ix st; http_ix := http_ix st;
                smtp_ix := smtp_ix st; sound_ix := sound_ix st;
                sleep_ix := sleep_ix st |}).

(** ** CryptoAlertBot: the methods *)

Section Methods.

Variable env : Env.
Variable bot : Bot.

(** [time.time()] *)
Definition time_time : M Q :=
  fun st =>
    (Ret (clock env (clock_ix st)),
     {| last_alert_time := last_alert_time st; running := running st;
        trace := trace st;
        clock_ix := S (clock_ix st); http_ix := http_ix st;
        smtp_ix := smtp_ix st; sound_ix := sound_ix st;
        sleep_ix := sleep_ix st |}).

(** [handle_shutdown]: the handler of SIGINT and SIGTERM. *)
Definition handle_shutdown : M unit :=
  logging INFO MsgShuttingDown ;;
  set_running false.

(** The request of [get_current_price], up to the decoded body. A signal
    that arrives while the request is in flight runs the handler; the
    request itself is not interrupted. *)
Definition requests_get_json : M pyval :=
  fun st =>
    let k := http_ix st in
    let st1 :=
      {| last_alert_time := last_alert_time st; running := running st;
         trace := trace st ++ [HttpGet (coin_id bot)];
         clock_ix := clock_ix st; http_ix := S k;
         smtp_ix := smtp_ix st; sound_ix := sound_ix st;
         sleep_ix := sleep_ix st |} in
    let st2 := if signal_in_fetch env k then snd (handle_shutdown st1) else st1 in
    match http env k with
    | HttpRaises e => (Raise e, st2)
    | HttpJson data => (Ret data, st2)
    end.

(** [get_current_price] *)
Definition get_current_price : M (option market_data) :=
  try_except
    (data <- requests_get_json ;;
     present <- lift (py_in (coin_id bot) data) ;;
     if negb present then
       logging ERROR (MsgCoinNotFound (coin_id bot)) ;;
       ret None
     else
       entry <- lift (py_getitem data (coin_id bot)) ;;
       price <- lift (py_getitem entry "usd") ;;
       volume <- lift (py_get entry "usd_24h_vol") ;;
       change <- lift (py_get entry "usd_24h_change") ;;
       ret (Some {| md_price := price; md_volume := volume; md_change := change |}))
    (fun _ => true)
    (fun e =>
       logging ERROR (if is_RequestException e then MsgNetworkError e
                      else MsgUnexpectedError e) ;;
       ret None).

(** The [try] block of [send_email_alert]: building the message and the
    SMTP session, one external action whose outcome the environment
    gives. *)
Definition smtp_session (sender receiver : pyval) (c : PriceCondition) : M unit :=
  fun st =>
    let k := smtp_ix st in
    let st1 :=
      {| last_alert_time := last_alert_time st; running := running st;
         trace := trace st ++ [SmtpSend sender receiver c];
         clock_ix := clock_ix st; http_ix := http_ix st;
         smtp_ix := S k; sound_ix := sound_ix st;
         sleep_ix := sleep_ix st |} in
    match smtp env k with
    | Some e => (Raise e, st1)
    | None => logging INFO MsgEmailSent st1
    end.

(** [send_email_alert] *)
Definition send_email_alert (md : market_data) (c : PriceCondition) : M unit :=
  email <- lift (py_getitem (config bot) "email") ;;
  vals <- lift (py_values email) ;;
  if negb (forallb truthy vals) then
    logging ERROR MsgEmailNotConfigured
  else
    (* subject and body: the two format specifications *)
    _ <- lift (format_f (md_price md)) ;;
    _ <- lift (format_f (md_volume md)) ;;
    sender_email <- lift (py_getitem email "sender_email") ;;
    sender_password <- lift (py_getitem email "sender_password") ;;
    receiver_email <- lift (py_getitem email "receiver_email") ;;
    try_except (smtp_session sender_email receiver_email c)
      (fun _ => true)
      (fun e => logging ERROR (MsgEmailError e)).

(** The body of the [try] block of [play_sound_alert]. *)
Definition afplay_sound_file : M unit :=
  fun st =>
    let k := sound_ix st in
    let st1 :=
      {| last_alert_time := last_alert_time st; running := running st;
         trace := trace st;
         clock_ix := clock_ix st; http_ix := http_ix st;
         smtp_ix := smtp_ix st; sound_ix := S k;
         sleep_ix := sleep_ix st |} in
    if negb (path_exists env k) then
      logging ERROR (MsgSoundFileNotFound (sound_file bot)) st1
    else
      match emit (Afplay (sound_file bot)) st1 with
      | (_, st2) =>
          match afplay env k with
          | Some e => (Raise e, st2)
          | None => logging INFO MsgSoundPlayed st2
          end
      end.

(** [play_sound_alert] *)
Definition play_sound_alert : M unit :=
  if negb (String.eqb (platform_system env) "Darwin") then
    logging WARNING MsgSoundOnlyMac
  else
    try_except afplay_sound_file is_SubprocessError
      (fun e => logging ERROR (MsgSoundError e)).

(** [(now - last) >= self.cooldown_period]: the difference of the two
    floats is rounded, the comparison with the [int] is exact. *)
Definition cooled_down (now last : Q) : bool :=
  num_le (Fin (inject_Z (cooldown_period bot))) (float_sub now last).

(** [should_send_alert] *)
Definition should_send_alert : M bool :=
  fun st =>
    match last_alert_time st with
    | None => (Ret true, st)
    | Some last =>
        (now <- time_time ;;
         ret (cooled_down now last)) st
    end.

(** One alert type of the fan-out (the [if]/[elif] of the inner loop). *)
Definition dispatch (md : market_data) (c : PriceCondition) (alert_type : string)
  : M unit :=
  if String.eqb alert_type "email" then send_email_alert md c
  else if String.eqb alert_type "sound" then play_sound_alert
  else ret tt.

(** [for alert_type in self.alert_types: ...] *)
Fixpoint fan_out (md : market_data) (c : PriceCondition) (types : list string)
  : M unit :=
  match types with
  | [] => ret tt
  | alert_type :: rest => dispatch md c alert_type ;; fan_out md c rest
  end.

(** [for condition in self.conditions: ...] *)
Fixpoint check_conditions (md : market_data) (price : number)
    (cs : list PriceCondition)
  : M unit :=
  match cs with
  | [] => ret tt
  | condition :: rest =>
      (if is_met condition price then
         allowed <- should_send_alert ;;
         if allowed then
           logging INFO (MsgAlertConditionMet condition) ;;
           fan_out md condition (alert_types bot) ;;
           now <- time_time ;;
           set_last_alert_time now
         else ret tt
       else ret tt) ;;
      check_conditions md price rest
  end.

(** The work of one cycle before its sleep: fetch, evaluate, notify. *)
Definition poll : M unit :=
  fetched <- get_current_price ;;
  match fetched with
  | Some md =>
      price <- lift (format_f (md_price md)) ;;
      logging INFO (MsgCurrentPrice price (md_change md)) ;;
      check_conditions md price (conditions bot)
  | None => ret tt
  end.

(** [time.sleep(secs)]: a negative length is refused; a signal that
    arrives during the sleep runs the handler and the sleep resumes for
    the time that is left. *)
Definition time_sleep (secs : Z) : M unit :=
  if (secs <? 0)%Z then raise ValueError
  else fun st =>
    let k := sleep_ix st in
    let st1 :=
      {| last_alert_time := last_alert_time st; running := running st;
         trace := trace st;
         clock_ix := clock_ix st; http_ix := http_ix st;
         smtp_ix := smtp_ix st; sound_ix := sound_ix st;
         sleep_ix := S k |} in
    match signal_in_sleep env k with
    | Some d =>
        if Qle_bool 0 d && Qle_bool d (inject_Z secs) then
          (emit (Sleep d) ;;
           handle_shutdown ;;
           emit (Sleep (inject_Z secs - d))) st1
        else emit (Sleep (inject_Z secs)) st1
    | None => emit (Sleep (inject_Z secs)) st1
    end.

(** The body of the [while] loop. *)
Definition cycle : M unit :=
  poll ;;
  time_sleep (check_interval bot).

(** [while self.running: ...]; [None] when the fuel runs out before the
    loop ends. *)
Fixpoint while_running (fuel : nat) (st : State) : option (result unit * State) :=
  match fuel with
  | O => None
  | S fuel' =>
      if running st then
        match cycle st with
        | (Ret _, st') => while_running fuel' st'
        | (Raise e, st') => Some (Raise e, st')
        end
      else Some (Ret tt, st)
  end.

(** The log lines before the loop. *)
Definition announce : M unit :=
  logging INFO (MsgStarting (coin_id bot)) ;;
  logging INFO (MsgAlertTypes (alert_types bot)) ;;
  fold_right (fun c k => logging INFO (MsgMonitoring c) ;; k) (ret tt)
    (conditions bot).

(** [start_monitoring] *)
Definition start_monitoring (fuel : nat) (st : State)
  : option (result unit * State) :=
  match announce st with
  | (Ret _, st1) =>
      match while_running fuel st1 with
      | Some (Ret _, st2) => Some (logging INFO MsgStopped st2)
      | other => other
      end
  | (Raise e, st1) => Some (Raise e, st1)
  end.

End Methods.

Arguments cooled_down : simpl never.

(** ** Construction: configuration file and environment variables *)

(** A file is either JSON text, held as the value it decodes to, or text
    that [json.load] rejects. *)
Inductive file : Type :=
  | FileJson (v : pyval)
  | FileNotJson.

(** [os.getenv(name, default)] *)
Definition os_getenv (environ : gmap string string) (name dflt : string) : string :=
  default dflt (environ !! name).

(** The dictionary [load_config] builds when the file is missing. *)
Definition default_config (environ : gmap string string) : pyval :=
  PDict (list_to_map
    [("email", PDict (list_to_map
        [("sender_email", PStr (os_getenv environ "SENDER_EMAIL" ""));
         ("sender_password", PStr (os_getenv environ "SENDER_PASSWORD" ""));
         ("receiver_email", PStr (os_getenv environ "RECEIVER_EMAIL" ""))]));
     ("notification_preferences", PDict (list_to_map
        [("price_history", PBool true);
         ("volume_alert", PBool true)]))]).

Section Construction.

(** Whether [open(path, 'w')] raises: the model of the file system has no
    directories and no permissions, so the error of opening a path for
    writing (a missing parent directory, a read-only location) is given
    from outside; [None] when the file opens. *)
Variable open_w : string -> option exn.

(** [str.lower], which follows the Unicode case mapping. *)
Variable str_lower : string -> string.

(** [save_config] *)
Definition save_config (path : string) (cfg : pyval) (fs : gmap string file)
  : (exn + unit) * gmap string file :=
  match open_w path with
  | Some e => (inl e, fs)
  | None => (inr tt, <[path := FileJson cfg]> fs)
  end.

(** [load_config]: an exception raised while the default is saved is
    raised inside the handler of [FileNotFoundError] and leaves the
    method. *)
Definition load_config (environ : gmap string string) (path : string)
    (fs : gmap string file) : (exn + pyval) * gmap string file :=
  match fs !! path with
  | Some (FileJson v) => (inr v, fs)
  | Some FileNotJson => (inl JSONDecodeError, fs)
  | None =>
      let cfg := default_config environ in
      match save_config path cfg fs with
      | (inr _, fs') => (inr cfg, fs')
      | (inl e, fs') => (inl e, fs')
      end
  end.

(** [x if isinstance(x, list) else [x]] *)
Definition as_list {A} (x : A + list A) : list A :=
  match x with
  | inl a => [a]
  | inr l => l
  end.

Definition initial_state : State :=
  {| last_alert_time := None; running := true; trace := [];
     clock_ix := 0; http_ix := 0; smtp_ix := 0; sound_ix := 0; sleep_ix := 0 |}.

(** [CryptoAlertBot.__init__]: the bot, its initial mutable state and the
    file system it leaves behind. *)
Definition CryptoAlertBot_init (environ : gmap string string) (fs : gmap string file)
    (coin : string) (conds : PriceCondition + list PriceCondition)
    (alerts : string + list string) (cooldown interval : Z)
    (sound cfg_file : string)
  : (exn + Bot * State) * gmap string file :=
  match load_config environ cfg_file fs with
  | (inr cfg, fs') =>
      (inr ({| coin_id := str_lower coin;
               conditions := as_list conds;
               alert_types := as_list alerts;
               cooldown_period := cooldown;
               check_interval := interval;
               sound_file := sound;
               config_file := cfg_file;
               config := cfg |}, initial_state), fs')
  | (inl e, fs') => (inl e, fs')
  end.

End Construction.

(** ** Vocabulary of the properties, and concrete worlds *)

(** Text of code points below 128. *)
Fixpoint is_ascii (s : string) : bool :=
  match s with
  | EmptyString => true
  | String c rest => (nat_of_ascii c <? 128)%nat && is_ascii rest
  end.

Definition lower_ascii (c : ascii) : ascii :=
  let n := nat_of_ascii c in
  if (65 <=? n)%nat && (n <=? 90)%nat then ascii_of_nat (n + 32) else c.

(** What [str.lower] does to ASCII text: the letters A to Z are mapped to
    a to z. *)
Fixpoint lower (s : string) : string :=
  match s with
  | EmptyString => EmptyString
  | String c rest => String (lower_ascii c) (lower rest)
  end.

(** A file system in which every path opens for writing. *)
Definition writable : string -> option exn := fun _ => None.

(** A world in which every request times out and no signal arrives. *)
Definition quiet_env : Env :=
  {| clock := fun k => inject_Z (1000 + Z.of_nat k);
     http := fun _ => HttpRaises Timeout;
     smtp := fun _ => None;
     platform_system := "Darwin";
     path_exists := fun _ => true;
     afplay := fun _ => None;
     signal_in_fetch := fun _ => false;
     signal_in_sleep := fun _ => None |}.

(** The bot of the example at the end of main.py, with the configuration
    written on a first start without environment variables. *)
Definition demo_bot : Bot :=
  {| coin_id := "official-trump";
     conditions := [mkPriceCondition (64 # 1) "below";
                    mkPriceCondition (80 # 1) "above";
                    mkPriceCondition (100 # 1) "above"];
     alert_types := ["sound"; "email"];
     cooldown_period := 300;
     check_interval := 60;
     sound_file := "/System/Library/Sounds/Ping.aiff";
     config_file := "crypto_config.json";
     config := default_config ∅ |}.

(** The alert types the fan-out has a branch for. *)
Definition known_alert_type (alert_type : string) : bool :=
  String.eqb alert_type "email" || String.eqb alert_type "sound".

(** The configuration file of the documented shape with empty email
    fields. *)
Definition empty_email_config : pyval :=
  PDict (list_to_map
    [("email", PDict (list_to_map
        [("sender_email", PStr "");
         ("sender_password", PStr "");
         ("receiver_email", PStr "")]));
     ("notification_preferences", PDict (list_to_map
        [("price_history", PBool true);
         ("volume_alert", PBool true)]))]).



(** Each fan-out starts with the line "Alert condition met", which is
    logged nowhere else. *)
Definition is_fan_out_mark (e : event) : bool :=
  match e with
  | Log INFO (MsgAlertConditionMet _) => true
  | _ => false
  end.

(** The number of fan-outs started in a trace. *)
Definition fan_outs (evs : list event) : nat :=
  length (List.filter is_fan_out_mark evs).

(** What the fetch and the dispatch leave alone: the cooldown state, the
    clock readings consumed, the number of fan-outs started. *)
Record frame (st st' : State) : Prop := mkFrame {
  frame_last : last_alert_time st' = last_alert_time st;
  frame_clock : clock_ix st' = clock_ix st;
  frame_marks : fan_outs (trace st') = fan_outs (trace st)
}.

Definition framed {A} (m : M A) : Prop := forall st, frame st (snd (m st)).

(** The two states of the cooldown gate, as [should_send_alert] answers
    at the next clock reading. *)
Definition gate_open (env : Env) (bot : Bot) (st : State) : Prop :=
  fst (should_send_alert env bot st) = Ret true.


(** The conditions met by a price, in configuration order. *)
Definition met_conditions (bot : Bot) (price : number) : list PriceCondition :=
  List.filter (fun c => is_met c price) (conditions bot).


(** A decoded response for the coin "pepe" at price 5, with or without the
    24h volume. *)
Definition pepe_body (with_volume : bool) : pyval :=
  PDict (list_to_map
    [("pepe", PDict (list_to_map
        (("usd", PNum (5 # 1)) ::
         ("usd_24h_change", PNum (3 # 2)) ::
         (if with_volume then [("usd_24h_vol", PNum (1000000 # 1))] else []))))]).

(** A world in which every request returns [body], mail and sound succeed,
    and successive clock readings are one second apart. *)
Definition pepe_env (body : pyval) : Env :=
  {| clock := fun k => inject_Z (1000 + Z.of_nat k);
     http := fun _ => HttpJson body;
     smtp := fun _ => None;
     platform_system := "Darwin";
     path_exists := fun _ => true;
     afplay := fun _ => None;
     signal_in_fetch := fun _ => false;
     signal_in_sleep := fun _ => None |}.

(** A configuration with all three email fields set. *)
Definition credentials_config : pyval :=
  PDict (list_to_map
    [("email", PDict (list_to_map
        [("sender_email", PStr "bot@example.org");
         ("sender_password", PStr "secret");
         ("receiver_email", PStr "me@example.org")]));
     ("notification_preferences", PDict (list_to_map
        [("price_history", PBool true);
         ("volume_alert", PBool true)]))]).

(** A bot watching "pepe" for a price above 1 and a price above 2. *)
Definition pepe_bot (alerts : list string) (cooldown : Z) : Bot :=
  {| coin_id := "pepe";
     conditions := [mkPriceCondition (1 # 1) "above";
                    mkPriceCondition (2 # 1) "above"];
     alert_types := alerts;
     cooldown_period := cooldown;
     check_interval := 60;
     sound_file := "/System/Library/Sounds/Ping.aiff";
     config_file := "crypto_config.json";
     config := credentials_config |}.

(** The market data [get_current_price] makes of [pepe_body]. *)
Definition pepe_data (with_volume : bool) : market_data :=
  {| md_price := PNum (5 # 1);
     md_volume := if with_volume then PNum (1000000 # 1) else PNone;
     md_change := PNum (3 # 2) |}.


(** The scenario of the specification: prices 70, 63, 65, 81 against
    "below 64" and "above 80", cooldown 300 s, interval 60 s; the clock
    reads 60 at the first alert and 180 in the fourth cycle, and a signal
    during the fourth sleep ends the run. *)
Definition price_body (p : Z) : pyval :=
  PDict (list_to_map [("pepe", PDict (list_to_map [("usd", PNum (inject_Z p))]))]).

Definition scenario_env : Env :=
  {| clock := fun k => match k with O => 60 # 1 | _ => 180 # 1 end;
     http := fun k =>
       HttpJson (price_body (match k with
                             | 0%nat => 70 | 1%nat => 63 | 2%nat => 65
                             | _ => 81 end));
     smtp := fun _ => None;
     platform_system := "Darwin";
     path_exists := fun _ => true;
     afplay := fun _ => None;
     signal_in_fetch := fun _ => false;
     signal_in_sleep := fun k =>
       match k with 3%nat => Some (0 # 1) | _ => None end |}.

Definition scenario_bot : Bot :=
  {| coin_id := "pepe";
     conditions := [mkPriceCondition (64 # 1) "below";
                    mkPriceCondition (80 # 1) "above"];
     alert_types := ["sound"];
     cooldown_period := 300;
     check_interval := 60;
     sound_file := "/System/Library/Sounds/Ping.aiff";
     config_file := "crypto_config.json";
     config := empty_email_config |}.

(** Whether a computation that may raise returned. *)
Definition is_ok {A} (r : exn + A) : bool :=
  match r with
  | inr _ => true
  | inl _ => false
  end.

(** The email section of the configuration, when the configuration is an
    object whose "email" entry is an object. *)
Definition email_section (bot : Bot) : option (gmap string pyval) :=
  match config bot with
  | PDict cfg =>
      match cfg !! "email" with
      | Some (PDict email) => Some email
      | _ => None
      end
  | _ => None
  end.

(** The same bot with another configuration. *)
Definition with_config (bot : Bot) (cfg : pyval) : Bot :=
  {| coin_id := coin_id bot;
     conditions := conditions bot;
     alert_types := alert_types bot;
     cooldown_period := cooldown_period bot;
     check_interval := check_interval bot;
     sound_file := sound_file bot;
     config_file := config_file bot;
     config := cfg |}.

(** The log line that ends an SMTP session. *)
Definition smtp_log (outcome : option exn) : event :=
  match outcome with
  | None => Log INFO MsgEmailSent
  | Some e => Log ERROR (MsgEmailError e)
  end.

(** The number of entries of an alert list equal to [a]. *)
Definition occurrences (a : string) (types : list string) : nat :=
  length (List.filter (fun x => String.eqb x a) types).

(** What a channel leaves alone: the cooldown state, the flag, the clock,
    the request and sleep counters, the number of fan-outs started. *)
Record channel_step (st st' : State) : Prop := mkChannelStep {
  cs_last : last_alert_time st' = last_alert_time st;
  cs_running : running st' = running st;
  cs_clock : clock_ix st' = clock_ix st;
  cs_http : http_ix st' = http_ix st;
  cs_sleep : sleep_ix st' = sleep_ix st;
  cs_marks : fan_outs (trace st') = fan_outs (trace st)
}.

(** The condition under which the email dispatch returns for a snapshot
    (see [send_email_alert_returns_iff]). *)
Definition email_dispatch_returns (bot : Bot) (md : market_data) : Prop :=
  exists email,
    email_section bot = Some email /\
    (forallb truthy (snd <$> map_to_list email) = false \/
     (is_ok (format_f (md_price md)) = true /\
      is_ok (format_f (md_volume md)) = true /\
      is_Some (email !! "sender_email") /\
      is_Some (email !! "sender_password") /\
      is_Some (email !! "receiver_email"))).

(** A decoded response in which the price of "pepe" is null. *)
Definition null_price_body : pyval :=
  PDict (list_to_map [("pepe", PDict (list_to_map [("usd", PNone)]))]).

(** A world in which the clock always reads [t]; requests return
    [pepe_body true], mail and sound succeed, no signal arrives. *)
Definition frozen_clock_env (t : Q) : Env :=
  {| clock := fun _ => t;
     http := fun _ => HttpJson (pepe_body true);
     smtp := fun _ => None;
     platform_system := "Darwin";
     path_exists := fun _ => true;
     afplay := fun _ => None;
     signal_in_fetch := fun _ => false;
     signal_in_sleep := fun _ => None |}.

(** The state of a bot whose last alert was recorded at time [t]. *)
Definition alerted_state (t : Q) : State :=
  snd (set_last_alert_time t initial_state).

(** No termination signal is ever delivered. *)
Definition no_signals (env : Env) : Prop :=
  (forall k, signal_in_fetch env k = false) /\
  (forall k, signal_in_sleep env k = None).

(** What the evaluation of [n] conditions may do to the state: it reads
    the clock at most twice and starts at most one fan-out per condition,
    and it changes the recorded alert time only if it started a
    fan-out. *)
Record eval_step (n : nat) (st st' : State) : Prop := mkEvalStep {
  es_running : running st' = running st;
  es_http : http_ix st' = http_ix st;
  es_sleep : sleep_ix st' = sleep_ix st;
  es_clock : (clock_ix st <= clock_ix st' <= clock_ix st + 2 * n)%nat;
  es_smtp : (smtp_ix st <= smtp_ix st')%nat;
  es_sound : (sound_ix st <= sound_ix st')%nat;
  es_marks :
    (fan_outs (trace st) <= fan_outs (trace st') <= fan_outs (trace st) + n)%nat;
  es_last :
    fan_outs (trace st') = fan_outs (trace st) ->
    last_alert_time st' = last_alert_time st;
  es_alerted : is_Some (last_alert_time st) -> is_Some (last_alert_time st')
}.

(** The state the announcement of [start_monitoring] leaves. *)
Definition announced (bot : Bot) (st : State) : State :=
  {| last_alert_time := last_alert_time st; running := running st;
     trace := trace st ++
              Log INFO (MsgStarting (coin_id bot)) ::
              Log INFO (MsgAlertTypes (alert_types bot)) ::
              List.map (fun c => Log INFO (MsgMonitoring c)) (conditions bot);
     clock_ix := clock_ix st; http_ix := http_ix st;
     smtp_ix := smtp_ix st; sound_ix := sound_ix st;
     sleep_ix := sleep_ix st |}.

(** A world like [pepe_env (pepe_body true)] in which a termination signal
    arrives during the first request. *)
Definition sigterm_in_fetch_env : Env :=
  {| clock := fun k => inject_Z (1000 + Z.of_nat k);
     http := fun _ => HttpJson (pepe_body true);
     smtp := fun _ => None;
     platform_system := "Darwin";
     path_exists := fun _ => true;
     afplay := fun _ => None;
     signal_in_fetch := fun k => match k with O => true | S _ => false end;
     signal_in_sleep := fun _ => None |}.

(** The bot of [pepe_bot] with a negative poll interval. *)
Definition hasty_bot : Bot :=
  {| coin_id := "pepe";
     conditions := [mkPriceCondition (1 # 1) "above"];
     alert_types := ["sound"];
     cooldown_period := 300;
     check_interval := -1;
     sound_file := "/System/Library/Sounds/Ping.aiff";
     config_file := "crypto_config.json";
     config := empty_email_config |}.

(** The initial state with the flag already down. *)
Definition stopped_state : State :=
  snd (set_running false initial_state).

(** Later clock readings are not smaller. *)
Definition monotone_clock (env : Env) : Prop :=
  forall i j, (i <= j)%nat -> (clock env i <= clock env j)%Q.

(** The recorded alert time of [s] is still [t1], or it is a clock reading
    already taken that the gate finds at least a cooldown period after
    [t1]. *)
Definition spaced (env : Env) (bot : Bot) (t1 : Q) (s : State) : Prop :=
  last_alert_time s = Some t1 \/
  exists j,
    (j < clock_ix s)%nat /\
    last_alert_time s = Some (clock env j) /\
    cooled_down bot (clock env j) t1 = true.

(** C9 as the specification words it: [ValueError] exactly for a condition
    type that is neither "above" nor "below". *)
Definition init_raises_iff_claim (float_of_string : string -> option number)
    (target : pyval) (ctype : string) : Prop :=
  PriceCondition_init float_of_string target ctype = inl ValueError <->
  ctype <> "above" /\ ctype <> "below".

(** Whether the subtraction of two floats is exact. *)
Definition exact_difference (x y : Q) : bool :=
  match float_sub x y with
  | Fin d => Qeq_bool d (x - y)
  | _ => false
  end.

(** C3 as the specification words it, for the reading of the clock that
    [should_send_alert] takes in the state after [t0] was recorded. *)
Definition cooldown_gate_claim (env : Env) (bot : Bot) (st : State) (t0 : Q)
  : Prop :=
  let W := inject_Z (cooldown_period bot) in
  let t := clock env (clock_ix st) in
  let recorded := snd (set_last_alert_time t0 st) in
  ((t0 <= t /\ t < t0 + W)%Q ->
     fst (should_send_alert env bot recorded) = Ret false) /\
  ((t >= t0 + W)%Q ->
     fst (should_send_alert env bot recorded) = Ret true).

(** A file system in which no path under "conf/" opens for writing,
    the directory being missing. *)
Definition missing_directory (path : string) : option exn :=
  if String.prefix "conf/" path then Some FileNotFoundError else None.

(** C8 as the specification words it: constructing on a path that holds
    no file creates the file with the default configuration and loads
    it. *)
Definition config_bootstrap_claim (open_w : string -> option exn)
    (str_lower : string -> string)
    (environ : gmap string string) (fs : gmap string file)
    (coin : string) (conds : PriceCondition + list PriceCondition)
    (alerts : string + list string) (cooldown interval : Z)
    (sound path : string) : Prop :=
  fs !! path = None ->
  exists bot fs',
    CryptoAlertBot_init open_w str_lower environ fs coin conds alerts
      cooldown interval sound path = (inr (bot, initial_state), fs') /\
    fs' !! path = Some (FileJson (default_config environ)) /\
    config bot = default_config environ.

(** ** Properties of rounding *)

Section Rounding.

Local Open Scope Q_scope.

Lemma rne_comp (x y : Q) : x == y -> rne x = rne y.
Proof.
  intros H. unfold rne. rewrite (Qfloor_comp x y H).
  assert (Hc : (x - inject_Z (Qfloor y) ?= 1 # 2) = (y - inject_Z (Qfloor y) ?= 1 # 2)).
  { apply Qcompare_comp; [rewrite H; reflexivity | reflexivity]. }
  rewrite Hc. reflexivity.
Qed.

Lemma rne_Z (k : Z) : rne (inject_Z k) = k.
Proof.
  unfold rne. rewrite Qfloor_Z.
  assert (H : (inject_Z k - inject_Z k ?= 1 # 2) = Lt).
  { assert (E : inject_Z k - inject_Z k == 0) by ring.
    rewrite E. reflexivity. }
  rewrite H. reflexivity.
Qed.

Lemma rne_bounds (q : Q) : (Qfloor q <= rne q <= Qfloor q + 1)%Z.
Proof.
  unfold rne. destruct (q - inject_Z (Qfloor q) ?= 1 # 2); [| lia | lia].
  destruct (Z.even (Qfloor q)); lia.
Qed.

Lemma rne_monotone (x y : Q) : x <= y -> (rne x <= rne y)%Z.
Proof.
  intros Hxy.
  pose proof (Qfloor_resp_le x y Hxy) as Hf.
  pose proof (rne_bounds x) as Bx. pose proof (rne_bounds y) as By.
  destruct (Z.eq_dec (Qfloor x) (Qfloor y)) as [E | N]; [| lia].
  unfold rne. rewrite E.
  destruct (Qcompare_spec (x - inject_Z (Qfloor y)) (1 # 2)) as [H1 | H1 | H1];
    destruct (Qcompare_spec (y - inject_Z (Qfloor y)) (1 # 2)) as [H2 | H2 | H2];
    try lia; try (exfalso; lra); destruct (Z.even (Qfloor y)); lia.
Qed.

Lemma pow2_pos (z : Z) : 0 < 2 ^ z.
Proof. apply Qpower_0_lt. reflexivity. Qed.

Lemma pow2_plus (a b : Z) : 2 ^ (a + b) == 2 ^ a * 2 ^ b.
Proof. apply Qpower_plus. discriminate. Qed.

Lemma pow2_Z (n : Z) : (0 <= n)%Z -> inject_Z (2 ^ n) == 2 ^ n.
Proof. intros H. rewrite Zpower_Qpower by exact H. reflexivity. Qed.

Lemma pow2_le (a b : Z) : (a <= b)%Z -> 2 ^ a <= 2 ^ b.
Proof. intros H. apply Qpower_le_compat_l; [exact H | discriminate]. Qed.

Lemma pow2_lt (a b : Z) : (a < b)%Z -> 2 ^ a < 2 ^ b.
Proof. intros H. apply Qpower_lt_compat_l; [exact H | reflexivity]. Qed.

Lemma pow2_lt_inv (a b : Z) : 2 ^ a < 2 ^ b -> (a < b)%Z.
Proof. intros H. apply (Qpower_lt_compat_l_inv 2); [exact H | reflexivity]. Qed.

Lemma floor_log2_spec (q : Q) :
  0 < q -> 2 ^ floor_log2 q <= q /\ q < 2 ^ (floor_log2 q + 1).
Proof.
  intros Hq. destruct q as [n d]. unfold floor_log2. simpl Qnum. simpl Qden.
  assert (Hn : (0 < n)%Z).
  { unfold Qlt in Hq. simpl in Hq. lia. }
  set (ln := Z.log2 n). set (ld := Z.log2 (Zpos d)).
  destruct (Z.log2_spec n Hn) as [Hn1 Hn2]. fold ln in Hn1, Hn2.
  destruct (Z.log2_spec (Zpos d) eq_refl) as [Hd1 Hd2]. fold ld in Hd1, Hd2.
  assert (Lln : (0 <= ln)%Z) by apply Z.log2_nonneg.
  assert (Lld : (0 <= ld)%Z) by apply Z.log2_nonneg.
  assert (Qn1 : 2 ^ ln <= inject_Z n).
  { rewrite <- pow2_Z by exact Lln. rewrite <- Zle_Qle. exact Hn1. }
  assert (Qn2 : inject_Z n < 2 ^ (ln + 1)).
  { rewrite <- pow2_Z by lia. rewrite <- Zlt_Qlt. exact Hn2. }
  assert (Qd1 : 2 ^ ld <= inject_Z (Zpos d)).
  { rewrite <- pow2_Z by exact Lld. rewrite <- Zle_Qle. exact Hd1. }
  assert (Qd2 : inject_Z (Zpos d) < 2 ^ (ld + 1)).
  { rewrite <- pow2_Z by lia. rewrite <- Zlt_Qlt. exact Hd2. }
  assert (Hq' : n # d == inject_Z n / inject_Z (Zpos d)) by apply Qmake_Qdiv.
  assert (Dpos : 0 < inject_Z (Zpos d)) by reflexivity.
  pose proof (pow2_pos ld) as Pld. pose proof (pow2_pos (ln - ld)) as Pe.
  pose proof (pow2_pos (ln - ld - 1)) as Pe1.
  assert (Eln : 2 ^ ln == 2 ^ (ln - ld) * 2 ^ ld).
  { rewrite <- pow2_plus. replace (ln - ld + ld)%Z with ln by lia. reflexivity. }
  assert (Eln1 : 2 ^ (ln + 1) == 2 ^ (ln - ld + 1) * 2 ^ ld).
  { rewrite <- pow2_plus. replace (ln - ld + 1 + ld)%Z with (ln + 1)%Z by lia. reflexivity. }
  assert (Eld1 : 2 ^ (ld + 1) == 2 * 2 ^ ld).
  { rewrite Z.add_comm, pow2_plus. reflexivity. }
  assert (Ee : 2 ^ (ln - ld) == 2 * 2 ^ (ln - ld - 1)).
  { replace (ln - ld)%Z with (1 + (ln - ld - 1))%Z at 1 by lia.
    rewrite pow2_plus. reflexivity. }
  assert (Up : n # d < 2 ^ (ln - ld + 1)).
  { rewrite Hq'. apply Qlt_shift_div_r; [exact Dpos |].
    pose proof (pow2_pos (ln - ld + 1)). nra. }
  assert (Lo : 2 ^ (ln - ld - 1) <= n # d).
  { rewrite Hq'. apply Qle_shift_div_l; [exact Dpos |]. nra. }
  destruct (Qle_bool (2 ^ (ln - ld)) (n # d)) eqn:E.
  - apply Qle_bool_iff in E. split; assumption.
  - replace (ln - ld - 1 + 1)%Z with (ln - ld)%Z by lia.
    split; [exact Lo |].
    apply Qnot_le_lt. intros H. apply Qle_bool_iff in H. congruence.
Qed.

Lemma on_grid_mono (s : Z) (x y : Q) : x <= y -> on_grid s x <= on_grid s y.
Proof.
  intros H. unfold on_grid. pose proof (pow2_pos s) as P.
  apply Qmult_le_compat_r; [| lra].
  rewrite <- Zle_Qle. apply rne_monotone.
  apply Qmult_le_compat_r; [exact H |].
  apply Qlt_le_weak, Qinv_lt_0_compat. exact P.
Qed.

Lemma on_grid_point (s k : Z) : on_grid s (inject_Z k * 2 ^ s) == inject_Z k * 2 ^ s.
Proof.
  unfold on_grid. pose proof (pow2_pos s) as P.
  rewrite (rne_comp _ (inject_Z k)); [rewrite rne_Z; reflexivity |].
  field. lra.
Qed.

Lemma on_grid_fix (s : Z) (g : Q) (k : Z) :
  g == inject_Z k * 2 ^ s -> on_grid s g == g.
Proof.
  intros E. unfold on_grid. pose proof (pow2_pos s) as P.
  rewrite (rne_comp _ (inject_Z k)); [rewrite rne_Z; lra |].
  rewrite E. field. lra.
Qed.

Lemma pow2_point (e s : Z) : (s <= e)%Z -> 2 ^ e == inject_Z (2 ^ (e - s)) * 2 ^ s.
Proof.
  intros H. rewrite pow2_Z by lia. rewrite <- pow2_plus.
  replace (e - s + s)%Z with e by lia. reflexivity.
Qed.

Lemma floor_log2_unique (q : Q) (e : Z) :
  2 ^ e <= q -> q < 2 ^ (e + 1) -> floor_log2 q = e.
Proof.
  intros H1 H2. pose proof (pow2_pos e) as P.
  destruct (floor_log2_spec q) as [S1 S2]; [lra |].
  assert (A : (floor_log2 q < e + 1)%Z) by (apply pow2_lt_inv; lra).
  assert (B : (e < floor_log2 q + 1)%Z) by (apply pow2_lt_inv; lra).
  lia.
Qed.

Lemma floor_log2_comp (x y : Q) : 0 < x -> x == y -> floor_log2 x = floor_log2 y.
Proof.
  intros Hx E. destruct (floor_log2_spec y) as [S1 S2]; [lra |].
  apply floor_log2_unique; lra.
Qed.

Lemma floor_log2_mono (x y : Q) : 0 < x -> x <= y -> (floor_log2 x <= floor_log2 y)%Z.
Proof.
  intros Hx Hxy.
  destruct (floor_log2_spec x Hx) as [X1 X2].
  destruct (floor_log2_spec y) as [Y1 Y2]; [lra |].
  assert (A : (floor_log2 x < floor_log2 y + 1)%Z) by (apply pow2_lt_inv; lra).
  lia.
Qed.

(** Rounding on the grid of the argument is monotone on the positive
    rationals... *)
Lemma round_pos_mono (x y : Q) :
  0 < x -> x <= y -> on_grid (ulp_exp x) x <= on_grid (ulp_exp y) y.
Proof.
  intros Hx Hxy. assert (Hy : 0 < y) by lra.
  unfold ulp_exp.
  rewrite (floor_log2_comp (Qabs x) x), (floor_log2_comp (Qabs y) y);
    try (apply Qabs_pos; lra); try (rewrite Qabs_pos; lra).
  pose proof (floor_log2_mono x y Hx Hxy) as He.
  destruct (floor_log2_spec x Hx) as [X1 X2].
  destruct (floor_log2_spec y Hy) as [Y1 Y2].
  set (ex := floor_log2 x) in *. set (ey := floor_log2 y) in *.
  destruct (Z.eq_dec (Z.max (ex - 52) (-1074)) (Z.max (ey - 52) (-1074))) as [E | N].
  - rewrite E. apply on_grid_mono. exact Hxy.
  - assert (Hlt : (ex < ey)%Z) by lia.
    assert (Hs : (Z.max (ey - 52) (-1074) <= ey)%Z) by lia.
    assert (Hs' : (Z.max (ex - 52) (-1074) <= ey)%Z) by lia.
    pose proof (pow2_le (ex + 1) ey ltac:(lia)) as Hg.
    apply Qle_trans with (2 ^ ey).
    + rewrite (pow2_point ey _ Hs').
      rewrite <- on_grid_point. apply on_grid_mono.
      rewrite <- pow2_point by exact Hs'. lra.
    + rewrite (pow2_point ey _ Hs) at 1.
      rewrite <- on_grid_point. apply on_grid_mono.
      rewrite <- pow2_point by exact Hs. exact Y1.
Qed.

(** ... and on the negative ones. *)
Lemma round_neg_mono (x y : Q) :
  y < 0 -> x <= y -> on_grid (ulp_exp x) x <= on_grid (ulp_exp y) y.
Proof.
  intros Hy Hxy. assert (Hx : x < 0) by lra.
  unfold ulp_exp.
  rewrite (floor_log2_comp (Qabs x) (- x)), (floor_log2_comp (Qabs y) (- y));
    try (apply Qabs_neg; lra); try (rewrite Qabs_neg; lra).
  pose proof (floor_log2_mono (- y) (- x) ltac:(lra) ltac:(lra)) as He.
  destruct (floor_log2_spec (- x) ltac:(lra)) as [X1 X2].
  destruct (floor_log2_spec (- y) ltac:(lra)) as [Y1 Y2].
  set (ex := floor_log2 (- x)) in *. set (ey := floor_log2 (- y)) in *.
  destruct (Z.eq_dec (Z.max (ex - 52) (-1074)) (Z.max (ey - 52) (-1074))) as [E | N].
  - rewrite E. apply on_grid_mono. exact Hxy.
  - assert (Hlt : (ey < ex)%Z) by lia.
    assert (Hs : (Z.max (ex - 52) (-1074) <= ex)%Z) by lia.
    assert (Hs' : (Z.max (ey - 52) (-1074) <= ex)%Z) by lia.
    pose proof (pow2_le (ey + 1) ex ltac:(lia)) as Hg.
    assert (G : forall s, (s <= ex)%Z ->
                  - 2 ^ ex == inject_Z (- 2 ^ (ex - s)) * 2 ^ s).
    { intros s Hle. rewrite (pow2_point ex s Hle) at 1.
      rewrite inject_Z_opp. ring. }
    apply Qle_trans with (- 2 ^ ex).
    + apply Qle_trans with (on_grid (Z.max (ex - 52) (-1074)) (- 2 ^ ex)).
      * apply on_grid_mono. lra.
      * rewrite (on_grid_fix _ _ _ (G _ Hs)). lra.
    + apply Qle_trans with (on_grid (Z.max (ey - 52) (-1074)) (- 2 ^ ex)).
      * rewrite (on_grid_fix _ _ _ (G _ Hs')). lra.
      * apply on_grid_mono. lra.
Qed.

Lemma on_grid_zero (s : Z) : on_grid s 0 == 0.
Proof. apply (on_grid_fix s 0 0%Z). ring. Qed.

Lemma round_grid_eq (q : Q) :
  round_grid q == if Qeq_bool q 0 then 0 else on_grid (ulp_exp q) q.
Proof. unfold round_grid. destruct (Qeq_bool q 0); [reflexivity | apply Qred_correct]. Qed.

Lemma round_grid_mono (x y : Q) : x <= y -> round_grid x <= round_grid y.
Proof.
  intros H. rewrite !round_grid_eq.
  destruct (Qeq_bool x 0) eqn:Ex; destruct (Qeq_bool y 0) eqn:Ey.
  - lra.
  - apply Qeq_bool_iff in Ex. apply Qeq_bool_neq in Ey.
    rewrite <- (on_grid_zero (ulp_exp y)). apply on_grid_mono. lra.
  - apply Qeq_bool_iff in Ey. apply Qeq_bool_neq in Ex.
    rewrite <- (on_grid_zero (ulp_exp x)). apply on_grid_mono. lra.
  - apply Qeq_bool_neq in Ex. apply Qeq_bool_neq in Ey.
    destruct (Qlt_le_dec 0 x) as [Px | Nx].
    + apply round_pos_mono; assumption.
    + destruct (Qlt_le_dec y 0) as [Ny | Py].
      * apply round_neg_mono; assumption.
      * apply Qle_trans with 0.
        -- rewrite <- (on_grid_zero (ulp_exp x)). apply on_grid_mono. lra.
        -- rewrite <- (on_grid_zero (ulp_exp y)). apply on_grid_mono. lra.
Qed.

Lemma num_le_Fin (a b : Q) : num_le (Fin a) (Fin b) = true <-> a <= b.
Proof. simpl. apply Qle_bool_iff. Qed.

(** Rounding to the nearest double is monotone, also where it overflows. *)
Lemma round_double_mono (x y : Q) :
  x <= y -> num_le (round_double x) (round_double y) = true.
Proof.
  intros H. apply round_grid_mono in H. unfold round_double.
  set (rx := round_grid x) in *. set (ry := round_grid y) in *.
  pose proof (pow2_pos 1024) as P.
  destruct (Qle_bool (2 ^ 1024) (Qabs rx)) eqn:Ox;
    destruct (Qle_bool (2 ^ 1024) (Qabs ry)) eqn:Oy;
    [| | | simpl; apply Qle_bool_iff; exact H];
    destruct (Qle_bool 0 rx) eqn:Sx; destruct (Qle_bool 0 ry) eqn:Sy;
    simpl; try reflexivity; exfalso;
    repeat match goal with
    | H : Qle_bool _ _ = true |- _ => apply Qle_bool_iff in H
    | H : Qle_bool _ _ = false |- _ =>
        apply not_true_iff_false in H; rewrite Qle_bool_iff in H
    end.
  all: revert Ox Oy; try revert Sx; try revert Sy.
  all: apply (Qabs_case rx); apply (Qabs_case ry); intros; lra.
Qed.

(** A number on its grid and in range is its own rounding. *)
Lemma round_double_small (q : Q) :
  Qabs q < 2 ^ 1024 -> round_grid q == q -> 
  exists r, round_double q = Fin r /\ r == q.
Proof.
  intros Hb Hr. unfold round_double.
  destruct (Qle_bool (2 ^ 1024) (Qabs (round_grid q))) eqn:E.
  - apply Qle_bool_iff in E. rewrite Hr in E. lra.
  - exists (round_grid q). split; [reflexivity | exact Hr].
Qed.

(** Integers of less than 53 bits are doubles. *)
Lemma round_double_int (k : Z) :
  (Z.abs k < 2 ^ 53)%Z ->
  exists r, round_double (inject_Z k) = Fin r /\ r == inject_Z k.
Proof.
  intros Hk. apply round_double_small.
  - change (Qabs (inject_Z k)) with (inject_Z (Z.abs k)).
    apply Qlt_trans with (2 ^ 53).
    + rewrite <- pow2_Z by lia. rewrite <- Zlt_Qlt. exact Hk.
    + apply pow2_lt. lia.
  - rewrite round_grid_eq. destruct (Qeq_bool (inject_Z k) 0) eqn:Z0.
    + apply Qeq_bool_iff in Z0. rewrite Z0. reflexivity.
    + apply Qeq_bool_neq in Z0.
      assert (Hpos : 0 < inject_Z (Z.abs k)).
      { change 0 with (inject_Z 0). rewrite <- Zlt_Qlt.
        assert (k <> 0%Z) by (intros ->; apply Z0; reflexivity). lia. }
      unfold ulp_exp. change (Qabs (inject_Z k)) with (inject_Z (Z.abs k)).
      destruct (floor_log2_spec _ Hpos) as [S1 S2].
      set (e := floor_log2 (inject_Z (Z.abs k))) in *.
      assert (He : (0 <= e < 53)%Z).
      { split.
        - assert (A : (0 < e + 1)%Z); [| lia].
          apply pow2_lt_inv. apply Qle_lt_trans with (inject_Z (Z.abs k)); [| exact S2].
          change (2 ^ 0) with (inject_Z 1). rewrite <- Zle_Qle.
          assert (k <> 0%Z) by (intros ->; apply Z0; reflexivity). lia.
        - apply pow2_lt_inv. apply Qle_lt_trans with (inject_Z (Z.abs k)); [exact S1 |].
          rewrite <- pow2_Z by lia. rewrite <- Zlt_Qlt. exact Hk. }
      replace (Z.max (e - 52) (-1074)) with (e - 52)%Z by lia.
      apply (on_grid_fix _ _ (k * 2 ^ (52 - e))).
      rewrite inject_Z_mult, pow2_Z by lia.
      rewrite <- Qmult_assoc, <- pow2_plus.
      replace (52 - e + (e - 52))%Z with 0%Z by lia.
      change (2 ^ 0) with 1. ring.
Qed.

End Rounding.

(** ** Properties of PriceCondition *)

Lemma num_le_trans (x y z : number) :
  num_le x y = true -> num_le y z = true -> num_le x z = true.
Proof.
  destruct x as [a | [] |], y as [b | [] |], z as [c | [] |]; simpl;
    try congruence.
  rewrite !Qle_bool_iff. apply Qle_trans.
Qed.

Lemma num_eq_Fin (a b : Q) : num_eq (Fin a) (Fin b) = true <-> (a == b)%Q.
Proof.
  unfold num_eq. simpl. rewrite andb_true_iff, !Qle_bool_iff. split.
  - intros [H1 H2]. apply Qle_antisym; assumption.
  - intros E. rewrite E. split; apply Qle_refl.
Qed.

Lemma is_met_above (t p : number) (c : PriceCondition) :
  condition_type c = "above" -> target_price c = t ->
  is_met c p = num_le t p.
Proof. intros Hc Ht. unfold is_met. rewrite Hc, Ht. reflexivity. Qed.

Lemma is_met_below (t p : number) (c : PriceCondition) :
  condition_type c = "below" -> target_price c = t ->
  is_met c p = num_le p t.
Proof. intros Hc Ht. unfold is_met. rewrite Hc, Ht. reflexivity. Qed.

(** C4. A condition above [t] is met exactly by the prices [p >= t], a
    condition below [t] exactly by the prices [p <= t]; a price equal to
    the target meets the condition in both directions. The comparisons are
    those of Python, on every number (a NaN price or target meets nothing
    and equals nothing); on finite numbers they are the order and the
    equality of the rationals. *)
Theorem is_met_spec (t p : number) :
  is_met (mkPriceCondition t "above") p = num_le t p /\
  is_met (mkPriceCondition t "below") p = num_le p t /\
  (num_eq p t = true ->
     is_met (mkPriceCondition t "above") p = true /\
     is_met (mkPriceCondition t "below") p = true) /\
  (forall a b : Q, t = Fin a -> p = Fin b ->
     (is_met (mkPriceCondition t "above") p = true <-> (b >= a)%Q) /\
     (is_met (mkPriceCondition t "below") p = true <-> (b <= a)%Q) /\
     ((b == a)%Q ->
        is_met (mkPriceCondition t "above") p = true /\
        is_met (mkPriceCondition t "below") p = true)).
Proof.
  rewrite (is_met_above t p), (is_met_below t p) by reflexivity.
  split; [reflexivity | split; [reflexivity | split]].
  - unfold num_eq. rewrite andb_true_iff. tauto.
  - intros a b -> ->. simpl. rewrite !Qle_bool_iff.
    split; [tauto | split; [tauto | intros Heq; split; lra]].
Qed.

Lemma is_met_spec_witness :
  ((64 # 1) == (128 # 2))%Q /\
  is_met (mkPriceCondition (128 # 2) "above") (64 # 1) = true /\
  is_met (mkPriceCondition (128 # 2) "below") (64 # 1) = true.
Proof.
  split; [reflexivity |].
  apply (proj2 (proj2 (proj2 (proj2 (proj2 (is_met_spec (128 # 2) (64 # 1))))
                 (128 # 2)%Q (64 # 1)%Q eq_refl eq_refl))).
  reflexivity.
Defined.

Section FloatConversion.

Variable float_of_string : string -> option number.

(** [float] is the identity on the floats that are not finite, refuses
    what is neither a number nor a string, and never returns an infinity
    for an [int]. *)
Lemma float_cases (x : pyval) :
  match x with
  | PNum (Fin q) =>
      (exists b, round_double q = Inf b /\
                 float float_of_string x = inl OverflowError) \/
      (exists r, round_double q = Fin r /\
                 float float_of_string x = inr (Fin r))
  | PNum y => float float_of_string x = inr y
  | PBool b => float float_of_string x = inr (Fin (if b then 1%Q else 0%Q))
  | PStr s =>
      match float_of_string s with
      | Some y => float float_of_string x = inr y
      | None => float float_of_string x = inl ValueError
      end
  | PNone | PList _ | PDict _ => float float_of_string x = inl TypeError
  end.
Proof.
  destruct x as [| b | [q | b |] | s | l | d]; simpl; try reflexivity.
  - unfold round_double.
    destruct (Qle_bool (2 ^ 1024)%Q (Qabs (round_grid q)));
      [left | right]; eexists; split; reflexivity.
  - destruct (float_of_string s); reflexivity.
Qed.

(** C9. The constructor converts the target first: an exception of
    [float] leaves the constructor whatever the condition type is. When
    the conversion returns, the constructor raises [ValueError] exactly
    when the condition type is neither "above" nor "below"; otherwise it
    stores the converted target and the condition type as given. *)
Theorem PriceCondition_init_spec (target : pyval) (ctype : string) :
  (forall e, float float_of_string target = inl e ->
     PriceCondition_init float_of_string target ctype = inl e) /\
  (forall x, float float_of_string target = inr x ->
     (PriceCondition_init float_of_string target ctype = inl ValueError <->
        ctype <> "above" /\ ctype <> "below") /\
     (forall c, PriceCondition_init float_of_string target ctype = inr c ->
        target_price c = x /\ condition_type c = ctype) /\
     (ctype = "above" \/ ctype = "below" ->
        PriceCondition_init float_of_string target ctype =
          inr (mkPriceCondition x ctype))).
Proof.
  unfold PriceCondition_init. split.
  - intros e ->. reflexivity.
  - intros x ->.
    destruct (String.eqb_spec ctype "above") as [Ha | Ha];
      destruct (String.eqb_spec ctype "below") as [Hb | Hb]; simpl.
    all: split; [split | split].
    all: try (intros [? ?]; congruence).
    all: try (intros c Hc; first [discriminate Hc | injection Hc as <-];
              split; reflexivity).
    all: try discriminate.
    all: try (intros _; reflexivity).
    + intros _. split; assumption.
    + intros [? | ?]; contradiction.
Qed.

End FloatConversion.

Lemma PriceCondition_init_spec_witness :
  PriceCondition_init (fun _ => None) (PNum (64 # 1)) "below" =
    inr (mkPriceCondition (64 # 1) "below") /\
  PriceCondition_init (fun _ => None) (PStr "sixty-four") "below" =
    inl ValueError.
Proof.
  split.
  - apply (proj2 (proj2 (proj2 (PriceCondition_init_spec (fun _ => None)
                   (PNum (64 # 1)) "below") (Fin (64 # 1)) eq_refl))).
    right. reflexivity.
  - apply (proj1 (PriceCondition_init_spec (fun _ => None)
                   (PStr "sixty-four") "below")).
    reflexivity.
Defined.

(** An [int] target beyond the range of a double with a condition type
    that is not accepted: the constructor raises [OverflowError], not
    [ValueError]. *)
Lemma init_overflow_counterexample :
  ~ (forall float_of_string,
       init_raises_iff_claim float_of_string
         (PNum (inject_Z (10 ^ 400))) "sideways").
Proof.
  intros H. specialize (H (fun _ => None)).
  assert (E : PriceCondition_init (fun _ => None)
                (PNum (inject_Z (10 ^ 400))) "sideways" = inl OverflowError)
    by (vm_compute; reflexivity).
  unfold init_raises_iff_claim in H. rewrite E in H.
  destruct H as [_ H]. discriminate H. split; discriminate.
Qed.

(** A target that is not a number with an accepted condition type: the
    constructor raises although the condition type is "above". *)
Example init_rejects_target :
  PriceCondition_init (fun _ => None) PNone "above" = inl TypeError /\
  PriceCondition_init (fun _ => None) (PStr "n/a") "above" = inl ValueError.
Proof. split; reflexivity. Qed.

(** ** The cooldown gate *)

Lemma should_send_alert_recorded env bot st (t0 : Q) :
  should_send_alert env bot (snd (set_last_alert_time t0 st)) =
    (Ret (cooled_down bot (clock env (clock_ix st)) t0),
     snd (time_time env (snd (set_last_alert_time t0 st)))).
Proof. reflexivity. Qed.

(** Where the subtraction is exact the gate compares the difference of the
    two times with the cooldown period. *)
Lemma cooled_down_exact bot (now last : Q) :
  exact_difference now last = true ->
  cooled_down bot now last =
    Qle_bool (inject_Z (cooldown_period bot)) (now - last).
Proof.
  unfold exact_difference, cooled_down.
  destruct (float_sub now last) as [d | |]; try discriminate.
  intros E. apply Qeq_bool_iff in E. simpl.
  apply eq_true_iff_eq. rewrite !Qle_bool_iff, E. reflexivity.
Qed.

(** The gate is monotone in the reading of the clock, rounding or not. *)
Lemma cooled_down_mono bot (last t t' : Q) :
  (t <= t')%Q ->
  cooled_down bot t last = true -> cooled_down bot t' last = true.
Proof.
  unfold cooled_down, float_sub. intros Ht H.
  apply (num_le_trans _ _ _ H). apply round_double_mono. lra.
Qed.

(** A cooldown period of less than 53 bits is a double: rounding the
    elapsed time never takes it across the period. *)
Lemma cooled_down_ge bot (now last : Q) :
  (Z.abs (cooldown_period bot) < 2 ^ 53)%Z ->
  (inject_Z (cooldown_period bot) <= now - last)%Q ->
  cooled_down bot now last = true.
Proof.
  intros HW H. unfold cooled_down, float_sub.
  destruct (round_double_int _ HW) as (r & Er & Hr).
  apply round_double_mono in H. rewrite Er in H.
  apply (num_le_trans _ (Fin r)); [| exact H].
  simpl. apply Qle_bool_iff. rewrite Hr. apply Qle_refl.
Qed.

Lemma cooled_down_lt bot (now last : Q) :
  (Z.abs (cooldown_period bot - 1) < 2 ^ 53)%Z ->
  (now - last <= inject_Z (cooldown_period bot) - 1)%Q ->
  cooled_down bot now last = false.
Proof.
  intros HW H. unfold cooled_down, float_sub.
  assert (E1 : (inject_Z (cooldown_period bot - 1) ==
                inject_Z (cooldown_period bot) - 1)%Q).
  { unfold Z.sub. rewrite inject_Z_plus, inject_Z_opp. reflexivity. }
  rewrite <- E1 in H.
  destruct (round_double_int _ HW) as (r & Er & Hr).
  apply round_double_mono in H. rewrite Er in H.
  destruct (num_le (inject_Z (cooldown_period bot)) (round_double (now - last)))
    eqn:E; [| reflexivity].
  pose proof (num_le_trans _ _ _ E H) as C. simpl in C.
  apply Qle_bool_iff in C. rewrite Hr in C.
  rewrite <- Zle_Qle in C. lia.
Qed.

(** C3. While no alert time has been recorded the gate allows. After the
    last alert time is set to [t0], the gate answers at the reading [t]
    whether the rounded difference [t - t0] of the two floats reaches the
    cooldown period [W]. Where that subtraction is exact it refuses
    [t < t0 + W] and allows [t >= t0 + W]; whatever the rounding is, for
    a period of less than 53 bits it allows every [t >= t0 + W] and
    refuses every [t <= t0 + W - 1]. *)
Theorem cooldown_gate_spec (env : Env) (bot : Bot) (st : State) (t0 t : Q) :
  let W := inject_Z (cooldown_period bot) in
  let recorded := snd (set_last_alert_time t0 st) in
  clock env (clock_ix st) = t ->
  (last_alert_time st = None ->
     fst (should_send_alert env bot st) = Ret true) /\
  fst (should_send_alert env bot recorded) = Ret (cooled_down bot t t0) /\
  (exact_difference t t0 = true ->
     ((t < t0 + W)%Q ->
        fst (should_send_alert env bot recorded) = Ret false) /\
     ((t >= t0 + W)%Q ->
        fst (should_send_alert env bot recorded) = Ret true)) /\
  ((Z.abs (cooldown_period bot) < 2 ^ 53)%Z -> (t >= t0 + W)%Q ->
     fst (should_send_alert env bot recorded) = Ret true) /\
  ((Z.abs (cooldown_period bot - 1) < 2 ^ 53)%Z -> (t <= t0 + W - 1)%Q ->
     fst (should_send_alert env bot recorded) = Ret false).
Proof.
  intros W recorded Ht. unfold recorded.
  rewrite should_send_alert_recorded, Ht. cbn [fst].
  split; [| split; [reflexivity | split; [| split]]].
  - intros E. unfold should_send_alert. rewrite E. reflexivity.
  - intros E. rewrite (cooled_down_exact _ _ _ E). fold W. split.
    + intros Hlt. f_equal.
      destruct (Qle_bool W (t - t0)) eqn:C; [| reflexivity].
      apply Qle_bool_iff in C. lra.
    + intros Hge. f_equal. apply Qle_bool_iff. lra.
  - intros HW Hge. f_equal. apply cooled_down_ge; [exact HW |]. fold W. lra.
  - intros HW Hle. f_equal. apply cooled_down_lt; [exact HW |].
    fold W. lra.
Qed.

Lemma cooldown_gate_spec_witness :
  fst (should_send_alert quiet_env demo_bot
         (snd (set_last_alert_time (inject_Z 900) initial_state))) = Ret false /\
  fst (should_send_alert quiet_env demo_bot
         (snd (set_last_alert_time (inject_Z 700) initial_state))) = Ret true /\
  fst (should_send_alert quiet_env demo_bot initial_state) = Ret true.
Proof.
  split; [| split].
  - apply (proj1 (proj1 (proj2 (proj2 (cooldown_gate_spec quiet_env demo_bot
                    initial_state (inject_Z 900) (inject_Z 1000) eq_refl)))
                    ltac:(vm_compute; reflexivity))).
    reflexivity.
  - apply (proj1 (proj2 (proj2 (proj2 (cooldown_gate_spec quiet_env demo_bot
                    initial_state (inject_Z 700) (inject_Z 1000) eq_refl))))).
    + vm_compute. reflexivity.
    + discriminate.
  - apply (proj1 (cooldown_gate_spec quiet_env demo_bot initial_state
                    0 (inject_Z 1000) eq_refl)).
    reflexivity.
Defined.

(** A recorded time of [2 ^ -70] and a reading of 300 with a cooldown of
    300 seconds: the reading is earlier than [t0 + W], and the difference
    of the two floats rounds to 300, so the gate allows. *)
Lemma cooldown_gate_counterexample :
  ~ cooldown_gate_claim (frozen_clock_env (300 # 1)) demo_bot initial_state
      (1 # 2 ^ 70).
Proof.
  intros [H _].
  assert (E : fst (should_send_alert (frozen_clock_env (300 # 1)) demo_bot
                     (snd (set_last_alert_time (1 # 2 ^ 70) initial_state)))
              = Ret true) by (vm_compute; reflexivity).
  rewrite H in E; [discriminate E |].
  split; [discriminate | reflexivity].
Qed.

(** ** The fan-out *)

Lemma dispatch_unknown env bot md c alert_type st :
  known_alert_type alert_type = false ->
  dispatch env bot md c alert_type st = (Ret tt, st).
Proof.
  unfold known_alert_type, dispatch. intros H.
  apply orb_false_elim in H as [-> ->]. reflexivity.
Qed.

Lemma dispatch_known env bot md c alert_type :
  known_alert_type alert_type = true ->
  dispatch env bot md c alert_type =
    if String.eqb alert_type "email" then send_email_alert env bot md c
    else play_sound_alert env bot.
Proof.
  unfold known_alert_type, dispatch. intros H.
  destruct (String.eqb alert_type "email"); [reflexivity |].
  simpl in H. rewrite H. reflexivity.
Qed.

(** C10. An alert type other than "email" and "sound" is skipped without
    any effect: no dispatch, no exception, no log line; the fan-out is the
    fan-out over the known alert types of the list, in the same order. *)
Theorem unknown_alert_types_skipped (env : Env) (bot : Bot) (md : market_data)
    (c : PriceCondition) (types : list string) (st : State) :
  (forall alert_type, alert_type <> "email" -> alert_type <> "sound" ->
     dispatch env bot md c alert_type st = (Ret tt, st)) /\
  fan_out env bot md c types st =
    fan_out env bot md c (List.filter known_alert_type types) st.
Proof.
  split.
  - intros a He Hs. apply dispatch_unknown. unfold known_alert_type.
    apply String.eqb_neq in He, Hs. rewrite He, Hs. reflexivity.
  - revert st. induction types as [| a rest IH]; intros st; [reflexivity |].
    simpl. destruct (known_alert_type a) eqn:Hk.
    + simpl. unfold bind. destruct (dispatch env bot md c a st) as [[[] | e] st'].
      * apply IH.
      * reflexivity.
    + unfold bind. rewrite dispatch_unknown by assumption. apply IH.
Qed.

Lemma unknown_alert_types_skipped_witness :
  dispatch quiet_env demo_bot (mkMarketData (PNum 63) PNone PNone)
    (mkPriceCondition 64 "below") "telegram" initial_state
  = (Ret tt, initial_state).
Proof.
  apply (proj1 (unknown_alert_types_skipped quiet_env demo_bot
                  (mkMarketData (PNum 63) PNone PNone)
                  (mkPriceCondition 64 "below") [] initial_state));
    discriminate.
Defined.

(** ** Configuration *)

(** C8. Constructing the bot on a path that holds no file opens the path
    for writing. When that succeeds the default configuration is written
    there and loaded, and a later load reads the same configuration back;
    without the three environment variables the email fields of that
    configuration are empty strings. When the path cannot be opened for
    writing the exception leaves the constructor: no bot, and no file. *)
Theorem config_bootstrap (open_w : string -> option exn)
    (str_lower : string -> string)
    (environ : gmap string string) (fs : gmap string file)
    (coin : string) (conds : PriceCondition + list PriceCondition)
    (alerts : string + list string) (cooldown interval : Z)
    (sound path : string) :
  fs !! path = None ->
  let fs' := <[path := FileJson (default_config environ)]> fs in
  (open_w path = None ->
     (exists bot,
        CryptoAlertBot_init open_w str_lower environ fs coin conds alerts
          cooldown interval sound path
          = (inr (bot, initial_state), fs') /\
        config bot = default_config environ) /\
     load_config open_w environ path fs' = (inr (default_config environ), fs')) /\
  (forall e, open_w path = Some e ->
     CryptoAlertBot_init open_w str_lower environ fs coin conds alerts
       cooldown interval sound path = (inl e, fs)) /\
  (environ !! "SENDER_EMAIL" = None ->
   environ !! "SENDER_PASSWORD" = None ->
   environ !! "RECEIVER_EMAIL" = None ->
   default_config environ = empty_email_config).
Proof.
  intros Hnone fs'. split; [| split].
  - intros Hw. split.
    + unfold CryptoAlertBot_init, load_config, save_config.
      rewrite Hnone, Hw. eexists. split; reflexivity.
    + unfold load_config, fs'. rewrite lookup_insert_eq. reflexivity.
  - intros e Hw. unfold CryptoAlertBot_init, load_config, save_config.
    rewrite Hnone, Hw. reflexivity.
  - intros H1 H2 H3. unfold default_config, os_getenv.
    rewrite H1, H2, H3. reflexivity.
Qed.

Lemma config_bootstrap_witness :
  load_config writable ∅ "crypto_config.json"
    (<["crypto_config.json" := FileJson (default_config ∅)]> ∅)
  = (inr (default_config ∅),
     <["crypto_config.json" := FileJson (default_config ∅)]> ∅) /\
  default_config ∅ = empty_email_config.
Proof.
  pose proof (config_bootstrap writable lower ∅ ∅ "Official-Trump"
                (inl (mkPriceCondition 64 "below")) (inl "sound") 300 60
                "/System/Library/Sounds/Ping.aiff" "crypto_config.json"
                (lookup_empty _)) as [Hw [_ Hdef]].
  split; [exact (proj2 (Hw eq_refl)) |].
  apply Hdef; apply lookup_empty.
Defined.

(** A configuration path in a directory that does not exist: the file is
    missing, opening it for writing raises [FileNotFoundError] inside the
    handler of [load_config], and the constructor raises without creating
    a file. *)
Lemma config_bootstrap_counterexample :
  ~ config_bootstrap_claim missing_directory lower ∅ ∅ "pepe"
      (inr []) (inr ["sound"]) 300 60 "/System/Library/Sounds/Ping.aiff"
      "conf/crypto_config.json".
Proof.
  intros H. destruct (H (lookup_empty _)) as (bot & fs' & E & _).
  discriminate E.
Qed.

Lemma all_values_falsy (d : gmap string pyval) (k : string) (v : pyval) :
  d !! k = Some v -> truthy v = false ->
  forallb truthy (snd <$> map_to_list d) = false.
Proof.
  intros Hk Hv.
  destruct (forallb truthy (snd <$> map_to_list d)) eqn:E; [| reflexivity].
  rewrite forallb_forall in E.
  rewrite <- (E v), Hv; [reflexivity |].
  apply list_elem_of_In.
  apply (list_elem_of_fmap_2 snd _ (k, v)).
  apply elem_of_map_to_list. exact Hk.
Qed.




(** ** The price fetch *)

Lemma requests_get_json_state env bot st :
  let k := http_ix st in
  let st1 := snd (requests_get_json env bot st) in
  last_alert_time st1 = last_alert_time st /\
  clock_ix st1 = clock_ix st /\
  smtp_ix st1 = smtp_ix st /\
  sound_ix st1 = sound_ix st /\
  sleep_ix st1 = sleep_ix st /\
  http_ix st1 = S k /\
  running st1 = (if signal_in_fetch env k then false else running st) /\
  trace st1 =
    (trace st ++ HttpGet (coin_id bot) ::
       (if signal_in_fetch env k then [Log INFO MsgShuttingDown] else []))%list.
Proof.
  unfold requests_get_json. simpl.
  destruct (signal_in_fetch env (http_ix st)), (http env (http_ix st)); simpl;
    rewrite <- ?app_assoc; repeat split; reflexivity.
Qed.

Lemma requests_get_json_result env bot st :
  fst (requests_get_json env bot st) =
    match http env (http_ix st) with
    | HttpRaises e => Raise e
    | HttpJson data => Ret data
    end.
Proof.
  unfold requests_get_json. destruct (http env (http_ix st)); reflexivity.
Qed.

(** [get_current_price] never raises: it returns the market data with the
    state the request left, or logs one error and returns [None]. *)
Lemma get_current_price_cases env bot st :
  let st1 := snd (requests_get_json env bot st) in
  (exists md, get_current_price env bot st = (Ret (Some md), st1)) \/
  (exists m, get_current_price env bot st = (Ret None, snd (logging ERROR m st1))).
Proof.
  unfold get_current_price, try_except, bind.
  destruct (requests_get_json env bot st) as [[data | e] st1]; simpl.
  2: { right. eexists. reflexivity. }
  destruct (py_in (coin_id bot) data) as [e | []]; simpl.
  1, 3: right; eexists; reflexivity.
  destruct (py_getitem data (coin_id bot)) as [e | entry]; simpl.
  1: right; eexists; reflexivity.
  destruct (py_getitem entry "usd") as [e | price]; simpl.
  1: right; eexists; reflexivity.
  destruct (py_get entry "usd_24h_vol") as [e | volume]; simpl.
  1: right; eexists; reflexivity.
  destruct (py_get entry "usd_24h_change") as [e | change]; simpl.
  1: right; eexists; reflexivity.
  left. eexists. reflexivity.
Qed.



Lemma while_running_step env bot fuel st st' :
  running st = true ->
  cycle env bot st = (Ret tt, st') ->
  while_running env bot (S fuel) st = while_running env bot fuel st'.
Proof. intros Hrun Hcycle. simpl. rewrite Hrun, Hcycle. reflexivity. Qed.



(** ** Shutdown *)

Lemma while_running_stopped env bot fuel st :
  running st = false ->
  while_running env bot (S fuel) st = Some (Ret tt, st).
Proof. intros H. simpl. rewrite H. reflexivity. Qed.




(** ** Counting fan-outs *)

Lemma fan_outs_app evs evs' :
  fan_outs (evs ++ evs') = (fan_outs evs + fan_outs evs')%nat.
Proof. unfold fan_outs. rewrite List.filter_app, List.length_app. reflexivity. Qed.

Lemma frame_refl st : frame st st.
Proof. split; reflexivity. Qed.

Lemma frame_trans st1 st2 st3 : frame st1 st2 -> frame st2 st3 -> frame st1 st3.
Proof. intros [] []. split; congruence. Qed.

Lemma framed_ret {A} (a : A) : framed (ret a).
Proof. intros st. apply frame_refl. Qed.

Lemma framed_raise {A} e : framed (@raise A e).
Proof. intros st. apply frame_refl. Qed.

Lemma framed_lift {A} (r : exn + A) : framed (lift r).
Proof. destruct r; [apply framed_raise | apply framed_ret]. Qed.

Lemma framed_bind {A B} (m : M A) (k : A -> M B) :
  framed m -> (forall a, framed (k a)) -> framed (bind m k).
Proof.
  intros Hm Hk st. unfold bind. specialize (Hm st).
  destruct (m st) as [[a | e] st']; simpl in *; [| exact Hm].
  eapply frame_trans; [exact Hm | apply Hk].
Qed.

Lemma framed_try_except {A} (m : M A) handles handler :
  framed m -> (forall e, framed (handler e)) -> framed (try_except m handles handler).
Proof.
  intros Hm Hh st. unfold try_except. specialize (Hm st).
  destruct (m st) as [[a | e] st']; simpl in *; [exact Hm |].
  destruct (handles e); [| exact Hm].
  eapply frame_trans; [exact Hm | apply Hh].
Qed.

Lemma framed_emit e : is_fan_out_mark e = false -> framed (emit e).
Proof.
  intros He st. split; simpl; try reflexivity.
  rewrite fan_outs_app. unfold fan_outs at 2. simpl. rewrite He. simpl. lia.
Qed.

Lemma framed_logging lvl m :
  is_fan_out_mark (Log lvl m) = false -> framed (logging lvl m).
Proof. apply framed_emit. Qed.

Create HintDb framed.
#[local] Hint Resolve framed_ret framed_raise framed_lift framed_logging
  framed_emit : framed.

Ltac framed_step :=
  first [ apply framed_bind; [| intros ?]
        | apply framed_try_except; [| intros ?]
        | solve [auto with framed]
        | apply framed_logging; reflexivity ].

Lemma framed_smtp_session env sender receiver c :
  framed (smtp_session env sender receiver c).
Proof.
  intros st. unfold smtp_session.
  destruct (smtp env (smtp_ix st)); split; simpl; try reflexivity;
    rewrite ?fan_outs_app; unfold fan_outs; simpl; lia.
Qed.

Lemma framed_send_email_alert env bot md c : framed (send_email_alert env bot md c).
Proof.
  unfold send_email_alert.
  repeat framed_step.
  match goal with |- framed (if ?b then _ else _) => destruct b end;
    [framed_step |].
  repeat framed_step. apply framed_smtp_session.
Qed.

Lemma framed_afplay_sound_file env bot : framed (afplay_sound_file env bot).
Proof.
  intros st. unfold afplay_sound_file.
  destruct (path_exists env (sound_ix st)); simpl;
    [destruct (afplay env (sound_ix st)) |]; split; simpl; try reflexivity;
    rewrite ?fan_outs_app; unfold fan_outs; simpl; lia.
Qed.

Lemma framed_play_sound_alert env bot : framed (play_sound_alert env bot).
Proof.
  unfold play_sound_alert.
  destruct (negb (String.eqb (platform_system env) "Darwin")); [framed_step |].
  framed_step; [apply framed_afplay_sound_file | framed_step].
Qed.

Lemma framed_dispatch env bot md c alert_type :
  framed (dispatch env bot md c alert_type).
Proof.
  unfold dispatch.
  destruct (String.eqb alert_type "email"); [apply framed_send_email_alert |].
  destruct (String.eqb alert_type "sound"); [apply framed_play_sound_alert |].
  apply framed_ret.
Qed.

Lemma framed_fan_out env bot md c types : framed (fan_out env bot md c types).
Proof.
  induction types as [| a rest IH]; simpl; [apply framed_ret |].
  apply framed_bind; [apply framed_dispatch | intros _; exact IH].
Qed.

Lemma framed_requests_get_json env bot : framed (requests_get_json env bot).
Proof.
  intros st.
  destruct (requests_get_json_state env bot st) as (Hl & Hc & _ & _ & _ & _ & _ & Ht).
  split; [exact Hl | exact Hc |].
  rewrite Ht, fan_outs_app.
  destruct (signal_in_fetch env (http_ix st)); unfold fan_outs; simpl; lia.
Qed.

Lemma framed_get_current_price env bot : framed (get_current_price env bot).
Proof.
  intros st. pose proof (framed_requests_get_json env bot st) as Hreq.
  destruct (get_current_price_cases env bot st) as [[md H] | [m H]]; rewrite H; simpl.
  - exact Hreq.
  - eapply frame_trans; [exact Hreq |].
    apply (framed_logging ERROR m). reflexivity.
Qed.

(** ** One cycle with several conditions met *)

Lemma should_send_alert_eq env bot st :
  should_send_alert env bot st =
    match last_alert_time st with
    | None => (Ret true, st)
    | Some last =>
        (Ret (cooled_down bot (clock env (clock_ix st)) last),
         snd (time_time env st))
    end.
Proof. unfold should_send_alert. destruct (last_alert_time st); reflexivity. Qed.


Lemma check_conditions_skip env bot md price pre rest st :
  forallb (fun c => negb (is_met c price)) pre = true ->
  check_conditions env bot md price (pre ++ rest) st =
  check_conditions env bot md price rest st.
Proof.
  induction pre as [| c pre IH]; simpl; [reflexivity |].
  intros H. apply andb_prop in H as [Hc Hpre].
  apply negb_true_iff in Hc. rewrite Hc. unfold bind at 1. simpl.
  apply IH. exact Hpre.
Qed.


Lemma bind_ret {A B} (a : A) (k : A -> M B) st : bind (ret a) k st = k a st.
Proof. reflexivity. Qed.

Lemma bind_logging {B} lvl m (k : unit -> M B) st :
  bind (logging lvl m) k st = k tt (snd (logging lvl m st)).
Proof. reflexivity. Qed.




Example zero_cooldown_two_fan_outs :
  let st' := snd (poll (pepe_env (pepe_body true)) (pepe_bot ["sound"] 0)
                    initial_state) in
  fan_outs (trace st') = 2%nat /\
  sound_ix st' = 2%nat /\
  fst (should_send_alert (pepe_env (pepe_body true)) (pepe_bot ["sound"] 0) st')
    = Ret true.
Proof. vm_compute. repeat split. Qed.


(** ** A snapshot without the 24h volume *)

(** C2 fails on the code. The provider leaves out the 24h volume, the bot
    has email credentials and alerts by email, then by sound. Formatting
    the absent volume raises [TypeError] in [send_email_alert] before its
    [try] block: no mail is sent, the sound alert is never attempted, the
    last alert time is not recorded and the exception ends the loop. *)
Theorem absent_volume_aborts_loop :
  let env := pepe_env (pepe_body false) in
  let bot := pepe_bot ["email"; "sound"] 300 in
  let st' := snd (poll env bot initial_state) in
  fst (get_current_price env bot initial_state) = Ret (Some (pepe_data false)) /\
  fst (poll env bot initial_state) = Raise TypeError /\
  trace st' =
    [HttpGet "pepe";
     Log INFO (MsgCurrentPrice (5 # 1) (PNum (3 # 2)));
     Log INFO (MsgAlertConditionMet (mkPriceCondition (1 # 1) "above"))] /\
  smtp_ix st' = 0%nat /\
  sound_ix st' = 0%nat /\
  last_alert_time st' = None /\
  (forall fuel,
     while_running env bot (S fuel) initial_state = Some (Raise TypeError, st')) /\
  (forall fuel,
     fst <$> start_monitoring env bot (S fuel) initial_state = Some (Raise TypeError)).
Proof.
  cbv zeta. repeat split; try (intros fuel); vm_compute; reflexivity.
Qed.

(** The failure does not depend on the run above: whenever the credentials
    are all set and the price can be formatted, an absent volume makes
    [send_email_alert] raise, and the alert types after "email" are not
    reached. *)
Lemma send_email_alert_absent_volume env bot md c st
    (cfg email : gmap string pyval) (price : number) :
  config bot = PDict cfg ->
  cfg !! "email" = Some (PDict email) ->
  forallb truthy (snd <$> map_to_list email) = true ->
  format_f (md_price md) = inr price ->
  md_volume md = PNone ->
  send_email_alert env bot md c st = (Raise TypeError, st) /\
  forall rest, fan_out env bot md c ("email" :: rest) st = (Raise TypeError, st).
Proof.
  intros Hcfg Hemail Hall Hprice Hvol.
  assert (Hsend : send_email_alert env bot md c st = (Raise TypeError, st)).
  { unfold send_email_alert. rewrite Hcfg. simpl. rewrite Hemail. simpl.
    unfold bind at 1. simpl. unfold bind at 1. simpl.
    rewrite Hall, Hprice, Hvol. reflexivity. }
  split; [exact Hsend |].
  intros rest. simpl. unfold bind, dispatch. simpl. rewrite Hsend. reflexivity.
Qed.

(** With the volume present the same bot sends the mail, plays the sound
    and records the alert time. *)
Example present_volume_completes :
  let env := pepe_env (pepe_body true) in
  let bot := pepe_bot ["email"; "sound"] 300 in
  let st' := snd (poll env bot initial_state) in
  fst (poll env bot initial_state) = Ret tt /\
  smtp_ix st' = 1%nat /\ sound_ix st' = 1%nat /\
  last_alert_time st' = Some (inject_Z 1000).
Proof. vm_compute. repeat split. Qed.

(** ** The scenario of the specification *)

(** The second cycle alerts for "below 64", the third matches nothing, the
    fourth is suppressed by the cooldown although "above 80" is met. *)
Example scenario_run :
  exists st',
    while_running scenario_env scenario_bot 5 initial_state = Some (Ret tt, st') /\
    List.filter is_fan_out_mark (trace st') =
      [Log INFO (MsgAlertConditionMet (mkPriceCondition (64 # 1) "below"))] /\
    http_ix st' = 4%nat /\
    sound_ix st' = 1%nat /\
    last_alert_time st' = Some (60 # 1).
Proof. eexists. vm_compute. repeat split. Qed.

(** ** Further properties of PriceCondition *)

Lemma num_le_total (x y : number) :
  x <> NaN -> y <> NaN -> num_le x y = true \/ num_le y x = true.
Proof.
  destruct x as [a | [] |], y as [b | [] |]; simpl; try tauto.
  intros _ _. rewrite !Qle_bool_iff.
  destruct (Qlt_le_dec a b) as [H | H]; [left; lra | right; exact H].
Qed.

Lemma num_le_NaN (x : number) : num_le x NaN = false /\ num_le NaN x = false.
Proof. destruct x as [a | [] |]; split; reflexivity. Qed.

(** X1. A condition that is met stays met when the price moves further in
    its direction: upwards for "above", downwards for "below". *)
Theorem is_met_monotone (c : PriceCondition) (p p' : number) :
  is_met c p = true ->
  (condition_type c = "above" -> num_le p p' = true -> is_met c p' = true) /\
  (condition_type c = "below" -> num_le p' p = true -> is_met c p' = true).
Proof.
  unfold is_met. intros Hmet.
  split; intros Hc Hle; rewrite Hc in *; simpl in *;
    eapply num_le_trans; eassumption.
Qed.

Lemma is_met_monotone_witness :
  is_met (mkPriceCondition (80 # 1) "above") (100 # 1) = true.
Proof.
  apply (proj1 (is_met_monotone (mkPriceCondition (80 # 1) "above")
                  (81 # 1)%Q (100 # 1)%Q eq_refl)).
  - reflexivity.
  - reflexivity.
Defined.

(** X2. A "below a" and an "above b" condition are never met together
    unless [b <= a]; when [b <= a] at least one of them is met at every
    price that is a number, and a NaN price meets neither. *)
Theorem is_met_bands (a b p : number) :
  let below := mkPriceCondition a "below" in
  let above := mkPriceCondition b "above" in
  (num_le b a = false -> is_met below p && is_met above p = false) /\
  (num_le b a = true -> p <> NaN ->
     is_met below p || is_met above p = true) /\
  (is_met below NaN = false /\ is_met above NaN = false).
Proof.
  unfold is_met. simpl. split; [| split].
  - intros H. apply andb_false_iff.
    destruct (num_le p a) eqn:E1; [| left; reflexivity]. right.
    destruct (num_le b p) eqn:E2; [| reflexivity].
    rewrite (num_le_trans _ _ _ E2 E1) in H. discriminate H.
  - intros H Hp. apply orb_true_iff.
    destruct (num_le p a) eqn:E1; [left; reflexivity |]. right.
    assert (Ha : a <> NaN).
    { intros ->. rewrite (proj1 (num_le_NaN b)) in H. discriminate H. }
    destruct (num_le_total p a Hp Ha) as [C | C]; [congruence |].
    exact (num_le_trans _ _ _ H C).
  - split; [apply (num_le_NaN a) | apply (num_le_NaN b)].
Qed.

Lemma is_met_bands_witness :
  is_met (mkPriceCondition (64 # 1) "below") (70 # 1) &&
  is_met (mkPriceCondition (80 # 1) "above") (70 # 1) = false /\
  is_met (mkPriceCondition (80 # 1) "below") (Inf false) ||
  is_met (mkPriceCondition (64 # 1) "above") (Inf false) = true.
Proof.
  split.
  - apply (proj1 (is_met_bands (64 # 1)%Q (80 # 1)%Q (70 # 1)%Q)). reflexivity.
  - apply (proj1 (proj2 (is_met_bands (80 # 1)%Q (64 # 1)%Q (Inf false)))).
    + reflexivity.
    + discriminate.
Defined.

(** X3. A condition that the constructor returns is met by exactly the
    prices at or beyond [float(target)] in the direction it was built
    with: the target that is compared is the converted one, so an [int]
    target is rounded to the nearest double first. *)
Theorem constructed_condition_is_met
    (float_of_string : string -> option number)
    (target : pyval) (ctype : string) (c : PriceCondition) (p : number) :
  PriceCondition_init float_of_string target ctype = inr c ->
  exists t,
    float float_of_string target = inr t /\
    (is_met c p = true <->
       (ctype = "above" /\ num_le t p = true) \/
       (ctype = "below" /\ num_le p t = true)).
Proof.
  unfold PriceCondition_init, is_met.
  destruct (float float_of_string target) as [e | t]; [discriminate |].
  intros H. exists t. split; [reflexivity |]. revert H.
  destruct (String.eqb_spec ctype "above") as [Ha | Ha]; simpl.
  - intros [= <-]. simpl. subst ctype. simpl.
    split; [intros H; left; split; [reflexivity | exact H] |].
    intros [[_ H] | [H _]]; [exact H | discriminate H].
  - destruct (String.eqb_spec ctype "below") as [Hb | Hb]; simpl; [| discriminate].
    intros [= <-]. simpl. subst ctype. simpl.
    split; [intros H; right; split; [reflexivity | exact H] |].
    intros [[H _] | [_ H]]; [discriminate H | exact H].
Qed.

(** The target [2 ^ 53 + 1] is stored as [2 ^ 53]: the condition is met
    by the price [2 ^ 53], which is below the target that was passed. *)
Lemma constructed_condition_is_met_witness :
  exists t,
    float (fun _ => None) (PNum (inject_Z (2 ^ 53 + 1))) = inr t /\
    (is_met (mkPriceCondition (inject_Z (2 ^ 53)) "above") (inject_Z (2 ^ 53))
       = true <->
     ("above" = "above" /\ num_le t (inject_Z (2 ^ 53)) = true) \/
     ("above" = "below" /\ num_le (inject_Z (2 ^ 53)) t = true)).
Proof.
  apply (constructed_condition_is_met (fun _ => None)
           (PNum (inject_Z (2 ^ 53 + 1))) "above"
           (mkPriceCondition (inject_Z (2 ^ 53)) "above") (inject_Z (2 ^ 53))).
  vm_compute. reflexivity.
Defined.

Example rounded_target :
  PriceCondition_init (fun _ => None) (PNum (inject_Z (2 ^ 53 + 1))) "above"
    = inr (mkPriceCondition (inject_Z (2 ^ 53)) "above") /\
  is_met (mkPriceCondition (inject_Z (2 ^ 53)) "above") (inject_Z (2 ^ 53))
    = true /\
  num_le (inject_Z (2 ^ 53 + 1)) (inject_Z (2 ^ 53)) = false.
Proof. vm_compute. repeat split. Qed.

(** ** Further properties of the construction *)

Lemma lower_ascii_idempotent (c : ascii) : lower_ascii (lower_ascii c) = lower_ascii c.
Proof.
  destruct c as [[] [] [] [] [] [] [] []]; vm_compute; reflexivity.
Qed.

Lemma lower_idempotent (s : string) : lower (lower s) = lower s.
Proof.
  induction s as [| c s IH]; simpl; [reflexivity |].
  rewrite lower_ascii_idempotent, IH. reflexivity.
Qed.

Lemma lower_ascii_is_ascii (c : ascii) :
  (nat_of_ascii c <? 128)%nat = true ->
  (nat_of_ascii (lower_ascii c) <? 128)%nat = true.
Proof.
  destruct c as [[] [] [] [] [] [] [] []]; vm_compute; intros H;
    first [reflexivity | discriminate H].
Qed.

Lemma lower_is_ascii (s : string) : is_ascii s = true -> is_ascii (lower s) = true.
Proof.
  induction s as [| c s IH]; simpl; [reflexivity |].
  rewrite !andb_true_iff. intros [Hc Hs].
  split; [apply lower_ascii_is_ascii; exact Hc | apply IH; exact Hs].
Qed.

(** X4. Once a file exists at the configuration path the constructor never
    writes to the file system and never reads the environment variables:
    JSON content is loaded as it is, without validation, and content that
    is not JSON makes the construction raise the decoding error. *)
Theorem construction_with_existing_file (open_w open_w' : string -> option exn)
    (str_lower : string -> string) (environ environ' : gmap string string)
    (fs : gmap string file) (coin : string)
    (conds : PriceCondition + list PriceCondition)
    (alerts : string + list string) (cooldown interval : Z)
    (sound path : string) (f : file) :
  fs !! path = Some f ->
  let built :=
    CryptoAlertBot_init open_w str_lower environ fs coin conds alerts
      cooldown interval sound path in
  snd built = fs /\
  built =
    CryptoAlertBot_init open_w' str_lower environ' fs coin conds alerts
      cooldown interval sound path /\
  (forall v, f = FileJson v ->
     exists bot, fst built = inr (bot, initial_state) /\ config bot = v) /\
  (f = FileNotJson -> fst built = inl JSONDecodeError).
Proof.
  intros Hf. unfold CryptoAlertBot_init, load_config. rewrite Hf.
  destruct f as [v |]; simpl.
  - repeat split; [| discriminate].
    intros v' [= <-]. eexists. split; reflexivity.
  - repeat split. intros v' Hv. discriminate Hv.
Qed.

Lemma construction_with_existing_file_witness :
  snd (CryptoAlertBot_init writable lower {["SENDER_EMAIL" := "bot@example.org"]}
         {["crypto_config.json" := FileJson empty_email_config]}
         "pepe" (inl (mkPriceCondition 1 "above")) (inl "email") 300 60
         "ping.aiff" "crypto_config.json")
  = {["crypto_config.json" := FileJson empty_email_config]}.
Proof.
  apply (construction_with_existing_file writable missing_directory lower
           {["SENDER_EMAIL" := "bot@example.org"]} ∅
           {["crypto_config.json" := FileJson empty_email_config]}
           "pepe" (inl (mkPriceCondition 1 "above")) (inl "email") 300 60
           "ping.aiff" "crypto_config.json" (FileJson empty_email_config)).
  apply lookup_singleton_eq.
Defined.

(** X5. When a first start on a missing file returns, the configuration
    it wrote is what every later start on that path loads, whatever the
    environment variables and the other constructor arguments are then:
    variables set after the file was created have no effect. *)
Theorem second_start_reads_first_config (open_w open_w' : string -> option exn)
    (str_lower str_lower' : string -> string)
    (environ environ' : gmap string string)
    (fs fs1 : gmap string file) (coin coin' : string)
    (conds conds' : PriceCondition + list PriceCondition)
    (alerts alerts' : string + list string)
    (cooldown interval cooldown' interval' : Z)
    (sound sound' path : string) (bot : Bot) (st0 : State) :
  fs !! path = None ->
  CryptoAlertBot_init open_w str_lower environ fs coin conds alerts cooldown
    interval sound path = (inr (bot, st0), fs1) ->
  exists bot',
    CryptoAlertBot_init open_w' str_lower' environ' fs1 coin' conds' alerts'
      cooldown' interval' sound' path = (inr (bot', initial_state), fs1) /\
    config bot' = default_config environ /\
    config bot' = config bot.
Proof.
  intros Hnone. unfold CryptoAlertBot_init, load_config, save_config.
  rewrite Hnone. destruct (open_w path) as [e |]; [discriminate |].
  intros [= <- _ <-]. rewrite lookup_insert_eq.
  eexists. repeat split.
Qed.

Lemma second_start_reads_first_config_witness :
  exists bot',
    CryptoAlertBot_init missing_directory lower
      {["SENDER_EMAIL" := "bot@example.org"]}
      (<["crypto_config.json" := FileJson (default_config ∅)]> ∅)
      "pepe" (inl (mkPriceCondition 1 "above")) (inl "email") 300 60
      "ping.aiff" "crypto_config.json"
    = (inr (bot', initial_state),
       <["crypto_config.json" := FileJson (default_config ∅)]> ∅) /\
    config bot' = default_config ∅.
Proof.
  assert (E : CryptoAlertBot_init writable lower ∅ ∅ "pepe"
                (inl (mkPriceCondition 1 "above")) (inl "email") 300 60
                "ping.aiff" "crypto_config.json"
              = (inr (mkBot "pepe" [mkPriceCondition 1 "above"] ["email"]
                        300 60 "ping.aiff" "crypto_config.json"
                        (default_config ∅), initial_state),
                 <["crypto_config.json" := FileJson (default_config ∅)]> ∅)).
  { unfold CryptoAlertBot_init, load_config, save_config.
    rewrite lookup_empty. reflexivity. }
  destruct (second_start_reads_first_config writable missing_directory
              lower lower ∅ {["SENDER_EMAIL" := "bot@example.org"]}
              ∅ _ "pepe" "pepe" (inl (mkPriceCondition 1 "above"))
              (inl (mkPriceCondition 1 "above")) (inl "email") (inl "email")
              300 60 300 60 "ping.aiff" "ping.aiff" "crypto_config.json"
              _ _ (lookup_empty _) E) as (bot' & H1 & H2 & _).
  exists bot'. split; [exact H1 | exact H2].
Defined.

(** A first start that cannot write leaves no file behind: the next start
    on the same path builds the default again, from the variables set
    then. *)
Example failed_first_start_leaves_no_file :
  CryptoAlertBot_init missing_directory lower ∅ ∅ "pepe" (inr []) (inr [])
    300 60 "ping.aiff" "conf/crypto_config.json"
  = (inl FileNotFoundError, ∅).
Proof. reflexivity. Qed.

(** X6. The constructor normalises its arguments: a single condition or
    alert type is the same as the one-element list, and the coin id is
    taken in lower case, so that the case of an ASCII coin id does not
    matter; [str.lower] maps the letters A to Z of ASCII text to a to z
    and leaves the rest of it. *)
Theorem construction_normalises (open_w : string -> option exn)
    (str_lower : string -> string) (environ : gmap string string)
    (fs : gmap string file) (coin : string) (c : PriceCondition) (a : string)
    (cooldown interval : Z) (sound path : string) :
  (forall s, is_ascii s = true -> str_lower s = lower s) ->
  is_ascii coin = true ->
  CryptoAlertBot_init open_w str_lower environ fs coin (inl c) (inl a)
    cooldown interval sound path
  = CryptoAlertBot_init open_w str_lower environ fs (lower coin) (inr [c])
      (inr [a]) cooldown interval sound path.
Proof.
  intros Hlower Hcoin. unfold CryptoAlertBot_init.
  rewrite (Hlower coin Hcoin), (Hlower _ (lower_is_ascii _ Hcoin)).
  rewrite lower_idempotent. reflexivity.
Qed.

Lemma construction_normalises_witness :
  CryptoAlertBot_init writable lower ∅ ∅ "Official-TRUMP"
    (inl (mkPriceCondition 64 "below")) (inl "sound") 300 60
    "ping.aiff" "crypto_config.json"
  = CryptoAlertBot_init writable lower ∅ ∅ "official-trump"
      (inr [mkPriceCondition 64 "below"]) (inr ["sound"]) 300 60
      "ping.aiff" "crypto_config.json".
Proof.
  apply (construction_normalises writable lower ∅ ∅ "Official-TRUMP"
           (mkPriceCondition 64 "below") "sound" 300 60
           "ping.aiff" "crypto_config.json").
  - intros s _. reflexivity.
  - reflexivity.
Defined.

(** ** Further properties of the price fetch *)

Lemma py_in_dict (d : gmap string pyval) (key : string) :
  py_in key (PDict d) = inr (match d !! key with Some _ => true | None => false end).
Proof.
  simpl. f_equal. destruct (d !! key) eqn:E.
  - apply bool_decide_eq_true. eauto.
  - apply bool_decide_eq_false. intros [x Hx]. discriminate Hx.
Qed.

(** X7. The fetch returns market data exactly when the decoded body is an
    object that holds, under the coin id, an object with the key "usd";
    the price is whatever value is stored there (it is not checked to be a
    number), and an absent 24h volume or change becomes [None]. *)
Theorem get_current_price_succeeds_iff (env : Env) (bot : Bot) (st : State)
    (md : market_data) :
  fst (get_current_price env bot st) = Ret (Some md) <->
  exists data entry price,
    http env (http_ix st) = HttpJson (PDict data) /\
    data !! coin_id bot = Some (PDict entry) /\
    entry !! "usd" = Some price /\
    md = {| md_price := price;
            md_volume := default PNone (entry !! "usd_24h_vol");
            md_change := default PNone (entry !! "usd_24h_change") |}.
Proof.
  pose proof (requests_get_json_result env bot st) as Hres.
  unfold get_current_price, try_except, bind.
  destruct (requests_get_json env bot st) as [r st1]. simpl in Hres. subst r.
  destruct (http env (http_ix st)) as [e | data].
  { simpl. split; [discriminate |].
    intros (d & en & pr & H & _). discriminate H. }
  destruct data as [| b | q | s | l | d];
    try (simpl; split; [discriminate | intros (d' & en & pr & H & _); discriminate H]).
  - simpl. destruct (match String.index 0 (coin_id bot) s with
                     | Some _ => true | None => false end); simpl;
      (split; [discriminate | intros (d' & en & pr & H & _); discriminate H]).
  - simpl. destruct (existsb _ l); simpl;
      (split; [discriminate | intros (d' & en & pr & H & _); discriminate H]).
  - rewrite py_in_dict. simpl.
    destruct (d !! coin_id bot) as [entry |] eqn:Hentry; simpl.
    2: { split; [discriminate |].
         intros (d' & en & pr & [= <-] & H & _). congruence. }
    destruct entry as [| b | q | s | l | en];
      try (simpl; split;
           [discriminate
           | intros (d' & en' & pr & [= <-] & H & _); congruence]).
    simpl. destruct (en !! "usd") as [price |] eqn:Hprice; simpl.
    + split.
      * intros [= <-]. exists d, en, price. repeat split; assumption.
      * intros (d' & en' & pr & [= <-] & H1 & H2 & ->).
        rewrite Hentry in H1. injection H1 as <-.
        rewrite Hprice in H2. injection H2 as <-. reflexivity.
    + split; [discriminate |].
      intros (d' & en' & pr & [= <-] & H1 & H2 & _).
      rewrite Hentry in H1. injection H1 as <-. congruence.
Qed.

(** X8. The fetch never raises, whatever the provider does: it makes one
    request, logs at most one error line, returns market data or [None],
    and leaves the cooldown state and the other channels untouched; the
    flag changes only if a signal arrives during the request. *)
Theorem get_current_price_never_raises (env : Env) (bot : Bot) (st : State) :
  let st' := snd (get_current_price env bot st) in
  (exists r, fst (get_current_price env bot st) = Ret r) /\
  http_ix st' = S (http_ix st) /\
  last_alert_time st' = last_alert_time st /\
  clock_ix st' = clock_ix st /\
  smtp_ix st' = smtp_ix st /\
  sound_ix st' = sound_ix st /\
  sleep_ix st' = sleep_ix st /\
  running st' = (if signal_in_fetch env (http_ix st) then false else running st) /\
  exists errors,
    (length errors <= 1)%nat /\
    Forall (fun e => exists m, e = Log ERROR m) errors /\
    trace st' =
      (trace st ++ HttpGet (coin_id bot) ::
         (if signal_in_fetch env (http_ix st) then [Log INFO MsgShuttingDown]
          else []) ++ errors)%list.
Proof.
  destruct (requests_get_json_state env bot st)
    as (Hl & Hc & Hsm & Hso & Hsl & Hh & Hr & Ht).
  destruct (get_current_price_cases env bot st) as [[md H] | [m H]];
    rewrite H; simpl.
  - split; [eauto |]. repeat (split; [assumption |]).
    exists []. split; [simpl; lia |]. split; [constructor |].
    rewrite app_nil_r. exact Ht.
  - split; [eauto |]. repeat (split; [assumption |]).
    exists [Log ERROR m]. split; [simpl; lia |].
    split; [repeat constructor; eauto |].
    rewrite Ht, <- app_assoc. reflexivity.
Qed.

(** ** Further properties of the channels *)

(** X9. The sound alert runs the player only on "Darwin" and only when
    the sound file exists; it raises exactly when the player raises
    something that is not a [SubprocessError], and it never touches the
    cooldown state, the flag or the mail channel. *)
Theorem play_sound_alert_spec (env : Env) (bot : Bot) (st : State) :
  let k := sound_ix st in
  let st' := snd (play_sound_alert env bot st) in
  let plays := String.eqb (platform_system env) "Darwin" && path_exists env k in
  (forall e, fst (play_sound_alert env bot st) = Raise e <->
     plays = true /\ afplay env k = Some e /\ is_SubprocessError e = false) /\
  (exists evs, trace st' = (trace st ++ evs)%list /\
     (In (Afplay (sound_file bot)) evs <-> plays = true)) /\
  last_alert_time st' = last_alert_time st /\
  running st' = running st /\
  clock_ix st' = clock_ix st /\
  http_ix st' = http_ix st /\
  smtp_ix st' = smtp_ix st /\
  sleep_ix st' = sleep_ix st.
Proof.
  unfold play_sound_alert, try_except, afplay_sound_file.
  destruct (String.eqb (platform_system env) "Darwin"); simpl.
  2: { split; [intros e; split; [discriminate | intros [H _]; discriminate H] |].
       split; [| repeat split].
       eexists. split; [reflexivity |]. simpl. split; [| discriminate].
       intros [H | []]. discriminate H. }
  destruct (path_exists env (sound_ix st)); simpl.
  2: { split; [intros e; split; [discriminate | intros [H _]; discriminate H] |].
       split; [| repeat split].
       eexists. split; [reflexivity |]. simpl. split; [| discriminate].
       intros [H | []]. discriminate H. }
  destruct (afplay env (sound_ix st)) as [e0 |]; simpl.
  - destruct (is_SubprocessError e0) eqn:Hsub; simpl.
    + split.
      { intros e. split; [discriminate |]. intros (_ & [= <-] & H). congruence. }
      split; [| repeat split].
      exists [Afplay (sound_file bot); Log ERROR (MsgSoundError e0)].
      split; [rewrite <- app_assoc; reflexivity |]. simpl. tauto.
    + split.
      { intros e. split; [intros [= <-]; auto |]. intros (_ & [= <-] & _). reflexivity. }
      split; [| repeat split].
      exists [Afplay (sound_file bot)]. split; [reflexivity |]. simpl. tauto.
  - split.
    { intros e. split; [discriminate |]. intros (_ & H & _). discriminate H. }
    split; [| repeat split].
    exists [Afplay (sound_file bot); Log INFO MsgSoundPlayed].
    split; [rewrite <- app_assoc; reflexivity |]. simpl. tauto.
Qed.

Lemma email_section_config bot email :
  email_section bot = Some email ->
  exists cfg, config bot = PDict cfg /\ cfg !! "email" = Some (PDict email).
Proof.
  unfold email_section. destruct (config bot) as [| | | | | cfg]; try discriminate.
  destruct (cfg !! "email") as [[| | | | | e] |] eqn:E; try discriminate.
  intros [= <-]. eauto.
Qed.

(** [send_email_alert] once the email section is found. *)
Lemma send_email_alert_section env bot md c st email :
  email_section bot = Some email ->
  send_email_alert env bot md c st =
    (if negb (forallb truthy (snd <$> map_to_list email)) then
       logging ERROR MsgEmailNotConfigured
     else
       _ <- lift (format_f (md_price md)) ;;
       _ <- lift (format_f (md_volume md)) ;;
       sender_email <- lift (py_getitem (PDict email) "sender_email") ;;
       sender_password <- lift (py_getitem (PDict email) "sender_password") ;;
       receiver_email <- lift (py_getitem (PDict email) "receiver_email") ;;
       try_except (smtp_session env sender_email receiver_email c)
         (fun _ => true)
         (fun e => logging ERROR (MsgEmailError e))) st.
Proof.
  intros H. destruct (email_section_config bot email H) as (cfg & Hcfg & Hemail).
  unfold send_email_alert. rewrite Hcfg. simpl. rewrite Hemail. reflexivity.
Qed.

(** The [try] block of [send_email_alert] with its handler never raises. *)
Lemma smtp_session_handled env sender receiver c st :
  try_except (smtp_session env sender receiver c) (fun _ => true)
    (fun e => logging ERROR (MsgEmailError e)) st
  = (Ret tt,
     {| last_alert_time := last_alert_time st; running := running st;
        trace := trace st ++ [SmtpSend sender receiver c; smtp_log (smtp env (smtp_ix st))];
        clock_ix := clock_ix st; http_ix := http_ix st;
        smtp_ix := S (smtp_ix st); sound_ix := sound_ix st;
        sleep_ix := sleep_ix st |}).
Proof.
  unfold try_except, smtp_session.
  destruct (smtp env (smtp_ix st)); simpl; unfold logging, emit; simpl;
    rewrite <- ?app_assoc; reflexivity.
Qed.

(** X10. The email dispatch returns (rather than raises) exactly when the
    configuration has an email section and either some value of that
    section is falsy, or the price and the volume of the snapshot can be
    formatted and the three credential keys are present. *)
Theorem send_email_alert_returns_iff (env : Env) (bot : Bot) (md : market_data)
    (c : PriceCondition) (st : State) :
  fst (send_email_alert env bot md c st) = Ret tt <->
  exists email,
    email_section bot = Some email /\
    (forallb truthy (snd <$> map_to_list email) = false \/
     (is_ok (format_f (md_price md)) = true /\
      is_ok (format_f (md_volume md)) = true /\
      is_Some (email !! "sender_email") /\
      is_Some (email !! "sender_password") /\
      is_Some (email !! "receiver_email"))).
Proof.
  destruct (email_section bot) as [email |] eqn:Hsec.
  - rewrite (send_email_alert_section env bot md c st email Hsec).
    destruct (forallb truthy (snd <$> map_to_list email)) eqn:Hall; simpl.
    2: { split; [intros _; exists email; auto | reflexivity]. }
    unfold bind.
    destruct (format_f (md_price md)) as [e1 | p]; simpl.
    { split; [discriminate |].
      intros (em & [= <-] & [H | (H & _)]); simpl in *; congruence. }
    destruct (format_f (md_volume md)) as [e2 | v]; simpl.
    { split; [discriminate |].
      intros (em & [= <-] & [H | (_ & H & _)]); simpl in *; congruence. }
    destruct (email !! "sender_email") as [s |] eqn:Hs; simpl.
    2: { split; [discriminate |].
         intros (em & [= <-] & [H | (_ & _ & [x H] & _)]); simpl in *; congruence. }
    destruct (email !! "sender_password") as [pw |] eqn:Hp; simpl.
    2: { split; [discriminate |].
         intros (em & [= <-] & [H | (_ & _ & _ & [x H] & _)]); simpl in *; congruence. }
    destruct (email !! "receiver_email") as [r |] eqn:Hr; simpl.
    2: { split; [discriminate |].
         intros (em & [= <-] & [H | (_ & _ & _ & _ & [x H])]); simpl in *; congruence. }
    rewrite smtp_session_handled. simpl.
    split; [| reflexivity]. intros _. exists email. split; [reflexivity |].
    right. rewrite Hs, Hp, Hr. repeat split; eauto.
  - split; [| intros (em & H & _); discriminate H].
    unfold email_section in Hsec. unfold send_email_alert.
    destruct (config bot) as [| | | | | cfg]; try discriminate.
    simpl. destruct (cfg !! "email") as [[| | | | | e] |]; try discriminate.
Qed.

Lemma send_email_alert_sends env bot md c st (email : gmap string pyval)
    (sender password receiver : pyval) :
  email_section bot = Some email ->
  forallb truthy (snd <$> map_to_list email) = true ->
  email !! "sender_email" = Some sender ->
  email !! "sender_password" = Some password ->
  email !! "receiver_email" = Some receiver ->
  is_ok (format_f (md_price md)) = true ->
  is_ok (format_f (md_volume md)) = true ->
  send_email_alert env bot md c st =
    try_except (smtp_session env sender receiver c) (fun _ => true)
      (fun e => logging ERROR (MsgEmailError e)) st.
Proof.
  intros Hsec Hall Hs Hp Hr Hprice Hvol.
  rewrite (send_email_alert_section env bot md c st email Hsec), Hall. simpl.
  unfold bind.
  destruct (format_f (md_price md)); [discriminate Hprice |].
  destruct (format_f (md_volume md)); [discriminate Hvol |].
  simpl. rewrite Hs, Hp, Hr. reflexivity.
Qed.

(** X11. With an email section whose values are all truthy, the three
    credentials present and a snapshot whose price and volume can be
    formatted, the email dispatch opens exactly one SMTP session and
    returns whatever that session does: a failure of the session is
    logged, not raised. *)
Theorem send_email_alert_complete (env : Env) (bot : Bot) (md : market_data)
    (c : PriceCondition) (st : State) (email : gmap string pyval)
    (sender password receiver : pyval) :
  email_section bot = Some email ->
  forallb truthy (snd <$> map_to_list email) = true ->
  email !! "sender_email" = Some sender ->
  email !! "sender_password" = Some password ->
  email !! "receiver_email" = Some receiver ->
  is_ok (format_f (md_price md)) = true ->
  is_ok (format_f (md_volume md)) = true ->
  let st' := snd (send_email_alert env bot md c st) in
  fst (send_email_alert env bot md c st) = Ret tt /\
  trace st' =
    (trace st ++ [SmtpSend sender receiver c; smtp_log (smtp env (smtp_ix st))])%list /\
  smtp_ix st' = S (smtp_ix st) /\
  last_alert_time st' = last_alert_time st /\
  running st' = running st.
Proof.
  intros Hsec Hall Hs Hp Hr Hprice Hvol.
  rewrite (send_email_alert_sends env bot md c st email sender password receiver)
    by assumption.
  rewrite smtp_session_handled. simpl. repeat split.
Qed.

Lemma send_email_alert_complete_witness :
  fst (send_email_alert (pepe_env (pepe_body true)) (pepe_bot ["email"] 300)
         (pepe_data true) (mkPriceCondition (1 # 1) "above") initial_state)
  = Ret tt.
Proof.
  eapply (send_email_alert_complete (pepe_env (pepe_body true))
            (pepe_bot ["email"] 300) (pepe_data true)
            (mkPriceCondition (1 # 1) "above") initial_state
            _ (PStr "bot@example.org") (PStr "secret") (PStr "me@example.org")).
  - reflexivity.
  - vm_compute. reflexivity.
  - vm_compute. reflexivity.
  - vm_compute. reflexivity.
  - vm_compute. reflexivity.
  - reflexivity.
  - reflexivity.
Defined.

Lemma forallb_false_exists {A} (f : A -> bool) (l : list A) :
  forallb f l = false -> exists x, In x l /\ f x = false.
Proof.
  induction l as [| a l IH]; simpl; [discriminate |].
  destruct (f a) eqn:Fa; simpl.
  - intros H. destruct (IH H) as (x & Hin & Hx). eauto.
  - intros _. eauto.
Qed.

Lemma all_values_falsy_inv (d : gmap string pyval) :
  forallb truthy (snd <$> map_to_list d) = false ->
  exists k v, d !! k = Some v /\ truthy v = false.
Proof.
  intros H. destruct (forallb_false_exists _ _ H) as (x & Hin & Hx).
  apply list_elem_of_In, list_elem_of_fmap in Hin as ([k v] & -> & Hkv).
  apply elem_of_map_to_list in Hkv. eauto.
Qed.

Lemma all_values_truthy (d : gmap string pyval) :
  (forall k v, d !! k = Some v -> truthy v = true) ->
  forallb truthy (snd <$> map_to_list d) = true.
Proof.
  intros H. apply forallb_forall. intros x Hin.
  apply list_elem_of_In, list_elem_of_fmap in Hin as ([k v] & -> & Hkv).
  apply elem_of_map_to_list in Hkv. eauto.
Qed.

(** X12. An email section without any entry passes the credentials check
    (there is no falsy value in it); with a snapshot that can be formatted
    the dispatch then raises [KeyError] at the lookup of the sender, before
    any SMTP session. *)
Theorem send_email_alert_empty_section (env : Env) (bot : Bot) (md : market_data)
    (c : PriceCondition) (st : State) :
  email_section bot = Some ∅ ->
  is_ok (format_f (md_price md)) = true ->
  is_ok (format_f (md_volume md)) = true ->
  send_email_alert env bot md c st = (Raise KeyError, st).
Proof.
  intros Hsec Hprice Hvol.
  rewrite (send_email_alert_section env bot md c st ∅ Hsec).
  rewrite map_to_list_empty. simpl. unfold bind.
  destruct (format_f (md_price md)); [discriminate Hprice |].
  destruct (format_f (md_volume md)); [discriminate Hvol |].
  reflexivity.
Qed.

Lemma send_email_alert_empty_section_witness :
  send_email_alert quiet_env
    (with_config demo_bot (PDict {["email" := PDict ∅]}))
    (pepe_data true) (mkPriceCondition (1 # 1) "above") initial_state
  = (Raise KeyError, initial_state).
Proof.
  apply (send_email_alert_empty_section quiet_env
           (with_config demo_bot (PDict {["email" := PDict ∅]}))
           (pepe_data true) (mkPriceCondition (1 # 1) "above") initial_state);
    reflexivity.
Defined.

(** X13. The credentials check looks at every value of the email section,
    not only at the three credentials: the dispatch stops with the one
    "not configured" error line exactly when some entry of the section,
    under any key, has a falsy value (empty string, null, false, zero,
    empty list or object). *)
Theorem credentials_check_iff (env : Env) (bot : Bot) (md : market_data)
    (c : PriceCondition) (st : State) (email : gmap string pyval) :
  email_section bot = Some email ->
  (send_email_alert env bot md c st = logging ERROR MsgEmailNotConfigured st <->
   exists k v, email !! k = Some v /\ truthy v = false).
Proof.
  intros Hsec. rewrite (send_email_alert_section env bot md c st email Hsec).
  split.
  - destruct (forallb truthy (snd <$> map_to_list email)) eqn:Hall.
    2: { intros _. apply all_values_falsy_inv. exact Hall. }
    simpl. unfold bind. intros H. exfalso.
    destruct (format_f (md_price md)); [discriminate H |].
    destruct (format_f (md_volume md)); [discriminate H |].
    simpl in H.
    destruct (email !! "sender_email"); [| discriminate H].
    destruct (email !! "sender_password"); [| discriminate H].
    destruct (email !! "receiver_email"); [| discriminate H].
    simpl in H. rewrite smtp_session_handled in H.
    injection H as Htrace Hix. lia.
  - intros (k & v & Hk & Hv).
    rewrite (all_values_falsy email k v Hk Hv). reflexivity.
Qed.

Lemma credentials_check_iff_witness :
  send_email_alert quiet_env
    (with_config demo_bot
       (PDict {["email" := PDict (<["cc" := PNone]>
                 {["sender_email" := PStr "bot@example.org"]})]}))
    (pepe_data true) (mkPriceCondition (1 # 1) "above") initial_state
  = logging ERROR MsgEmailNotConfigured initial_state.
Proof.
  assert (Hsec : email_section
            (with_config demo_bot
               (PDict {["email" := PDict (<["cc" := PNone]>
                         {["sender_email" := PStr "bot@example.org"]})]}))
          = Some (<["cc" := PNone]> {["sender_email" := PStr "bot@example.org"]})).
  { vm_compute. reflexivity. }
  apply (proj2 (credentials_check_iff quiet_env _
           (pepe_data true) (mkPriceCondition (1 # 1) "above") initial_state
           _ Hsec)).
  exists "cc", PNone. split; [apply lookup_insert_eq | reflexivity].
Defined.

(** X14. A first start with the three environment variables set to
    non-empty values writes a configuration with which an email dispatch
    passes the credentials check and opens an SMTP session from the seeded
    sender to the seeded receiver. *)
Theorem env_seeded_config_sends (environ : gmap string string) (env : Env)
    (bot : Bot) (md : market_data) (c : PriceCondition) (st : State)
    (sender password receiver : string) :
  environ !! "SENDER_EMAIL" = Some sender -> sender <> "" ->
  environ !! "SENDER_PASSWORD" = Some password -> password <> "" ->
  environ !! "RECEIVER_EMAIL" = Some receiver -> receiver <> "" ->
  config bot = default_config environ ->
  is_ok (format_f (md_price md)) = true ->
  is_ok (format_f (md_volume md)) = true ->
  fst (send_email_alert env bot md c st) = Ret tt /\
  trace (snd (send_email_alert env bot md c st)) =
    (trace st ++ [SmtpSend (PStr sender) (PStr receiver) c;
                  smtp_log (smtp env (smtp_ix st))])%list.
Proof.
  intros Hs Hs' Hp Hp' Hr Hr' Hcfg Hprice Hvol.
  set (email := (list_to_map
        [("sender_email", PStr sender);
         ("sender_password", PStr password);
         ("receiver_email", PStr receiver)] : gmap string pyval)).
  assert (Hsec : email_section bot = Some email).
  { unfold email_section. rewrite Hcfg. unfold default_config, os_getenv.
    rewrite Hs, Hp, Hr. reflexivity. }
  assert (Hall : forallb truthy (snd <$> map_to_list email) = true).
  { apply all_values_truthy. intros k v. subst email. simpl.
    rewrite !lookup_insert_Some, lookup_empty.
    intros [[_ <-] | [_ [[_ <-] | [_ [[_ <-] | [_ H]]]]]];
      [| | | discriminate H]; simpl; apply negb_true_iff, String.eqb_neq;
      assumption. }
  rewrite (send_email_alert_sends env bot md c st email
             (PStr sender) (PStr password) (PStr receiver))
    by (assumption || reflexivity).
  rewrite smtp_session_handled. simpl. split; reflexivity.
Qed.

Lemma env_seeded_config_sends_witness :
  fst (send_email_alert quiet_env
         (with_config demo_bot
            (default_config (<["SENDER_EMAIL" := "bot@example.org"]>
                            (<["SENDER_PASSWORD" := "secret"]>
                             {["RECEIVER_EMAIL" := "me@example.org"]}))))
         (pepe_data true) (mkPriceCondition (1 # 1) "above") initial_state)
  = Ret tt.
Proof.
  apply (env_seeded_config_sends
           (<["SENDER_EMAIL" := "bot@example.org"]>
              (<["SENDER_PASSWORD" := "secret"]>
                 {["RECEIVER_EMAIL" := "me@example.org"]}))
           quiet_env _ (pepe_data true) (mkPriceCondition (1 # 1) "above")
           initial_state "bot@example.org" "secret" "me@example.org");
    try reflexivity; try discriminate; vm_compute; reflexivity.
Defined.

(** ** What the configuration is read for *)

Lemma bind_ext {A B} (m m' : M A) (k k' : A -> M B) st :
  m st = m' st -> (forall a st', k a st' = k' a st') ->
  bind m k st = bind m' k' st.
Proof.
  intros Hm Hk. unfold bind. rewrite Hm.
  destruct (m' st) as [[a | e] st']; [apply Hk | reflexivity].
Qed.

Section WithConfig.

Variable env : Env.
Variable bot : Bot.
Variable cfg' : pyval.
Variable email : gmap string pyval.
Hypothesis Hsec : email_section bot = Some email.
Hypothesis Hsec' : email_section (with_config bot cfg') = Some email.

Lemma send_email_alert_with_config md c st :
  send_email_alert env (with_config bot cfg') md c st =
  send_email_alert env bot md c st.
Proof.
  rewrite (send_email_alert_section env _ md c st email Hsec').
  rewrite (send_email_alert_section env _ md c st email Hsec).
  reflexivity.
Qed.

Lemma dispatch_with_config md c a st :
  dispatch env (with_config bot cfg') md c a st = dispatch env bot md c a st.
Proof.
  unfold dispatch. destruct (String.eqb a "email").
  - apply send_email_alert_with_config.
  - reflexivity.
Qed.

Lemma fan_out_with_config md c types : forall st,
  fan_out env (with_config bot cfg') md c types st = fan_out env bot md c types st.
Proof.
  induction types as [| a rest IH]; intros st; simpl; [reflexivity |].
  apply bind_ext; [apply dispatch_with_config | intros _; exact IH].
Qed.

Lemma check_conditions_with_config md price cs : forall st,
  check_conditions env (with_config bot cfg') md price cs st =
  check_conditions env bot md price cs st.
Proof.
  induction cs as [| c rest IH]; intros st; simpl; [reflexivity |].
  apply bind_ext; [| intros _; exact IH].
  destruct (is_met c price); [| reflexivity].
  apply bind_ext; [reflexivity |].
  intros [] st1; [| reflexivity].
  apply bind_ext; [reflexivity |]. intros _ st2.
  apply bind_ext; [apply fan_out_with_config | reflexivity].
Qed.

End WithConfig.

(** X15. The configuration is read only through its email section: two
    configurations with the same email section give the same cycle, so the
    notification preferences stored in the file change nothing. *)
Theorem config_read_through_email_section (env : Env) (bot : Bot) (cfg' : pyval)
    (email : gmap string pyval) (st : State) :
  email_section bot = Some email ->
  email_section (with_config bot cfg') = Some email ->
  cycle env (with_config bot cfg') st = cycle env bot st.
Proof.
  intros Hsec Hsec'. unfold cycle, bind.
  assert (Hpoll : poll env (with_config bot cfg') st = poll env bot st).
  { unfold poll, bind.
    change (get_current_price env (with_config bot cfg') st)
      with (get_current_price env bot st).
    destruct (get_current_price env bot st) as [[[md |] | e] st1]; try reflexivity.
    destruct (lift (format_f (md_price md)) st1) as [[price | e] st2]; [| reflexivity].
    simpl.
    change (conditions (with_config bot cfg')) with (conditions bot).
    apply (check_conditions_with_config env bot cfg' email Hsec Hsec'). }
  rewrite Hpoll. reflexivity.
Qed.

Lemma config_read_through_email_section_witness :
  cycle (pepe_env (pepe_body true))
    (with_config (pepe_bot ["email"; "sound"] 300)
       (PDict {["email" := PDict (list_to_map
                  [("sender_email", PStr "bot@example.org");
                   ("sender_password", PStr "secret");
                   ("receiver_email", PStr "me@example.org")])]}))
    initial_state
  = cycle (pepe_env (pepe_body true)) (pepe_bot ["email"; "sound"] 300)
      initial_state.
Proof.
  eapply (config_read_through_email_section (pepe_env (pepe_body true))
            (pepe_bot ["email"; "sound"] 300)).
  - vm_compute. reflexivity.
  - vm_compute. reflexivity.
Defined.

(** ** Further properties of the fan-out *)

Lemma channel_step_refl st : channel_step st st.
Proof. split; reflexivity. Qed.

Lemma channel_step_trans st1 st2 st3 :
  channel_step st1 st2 -> channel_step st2 st3 -> channel_step st1 st3.
Proof. intros [] []. split; congruence. Qed.

Lemma channel_step_logging lvl m st :
  is_fan_out_mark (Log lvl m) = false ->
  channel_step st (snd (logging lvl m st)).
Proof.
  intros H. split; try reflexivity. simpl.
  rewrite fan_outs_app. unfold fan_outs at 2. simpl. simpl in H. rewrite H.
  simpl. lia.
Qed.

(** The three ways [send_email_alert] can end. *)
Lemma send_email_alert_shape env bot md c st :
  (exists e, send_email_alert env bot md c st = (Raise e, st)) \/
  send_email_alert env bot md c st = logging ERROR MsgEmailNotConfigured st \/
  (exists sender receiver,
     send_email_alert env bot md c st =
       try_except (smtp_session env sender receiver c) (fun _ => true)
         (fun e => logging ERROR (MsgEmailError e)) st).
Proof.
  unfold send_email_alert, bind.
  destruct (lift (py_getitem (config bot) "email") st) as [[email | e] st1] eqn:E1.
  2: { left. exists e. destruct (py_getitem (config bot) "email"); inversion E1; reflexivity. }
  assert (st1 = st) as -> by (destruct (py_getitem (config bot) "email"); inversion E1; reflexivity).
  destruct (py_values email) as [e | vals]; simpl; [left; eauto |].
  destruct (forallb truthy vals); simpl; [| right; left; reflexivity].
  destruct (format_f (md_price md)); simpl; [left; eauto |].
  destruct (format_f (md_volume md)); simpl; [left; eauto |].
  destruct (py_getitem email "sender_email"); simpl; [left; eauto |].
  destruct (py_getitem email "sender_password"); simpl; [left; eauto |].
  destruct (py_getitem email "receiver_email"); simpl; [left; eauto |].
  right. right. eauto.
Qed.

Lemma send_email_alert_step env bot md c st :
  let st' := snd (send_email_alert env bot md c st) in
  channel_step st st' /\
  sound_ix st' = sound_ix st /\
  (smtp_ix st <= smtp_ix st' <= S (smtp_ix st))%nat.
Proof.
  destruct (send_email_alert_shape env bot md c st)
    as [[e H] | [H | (s & r & H)]]; rewrite H; simpl.
  - split; [apply channel_step_refl |]. split; [reflexivity | lia].
  - split; [apply (channel_step_logging ERROR MsgEmailNotConfigured); reflexivity |].
    split; [reflexivity | lia].
  - rewrite smtp_session_handled. simpl.
    split; [| split; [reflexivity | lia]].
    split; try reflexivity. simpl. rewrite fan_outs_app.
    unfold fan_outs at 2. destruct (smtp env (smtp_ix st)); simpl; lia.
Qed.

Lemma play_sound_alert_step env bot st :
  let st' := snd (play_sound_alert env bot st) in
  channel_step st st' /\
  smtp_ix st' = smtp_ix st /\
  (sound_ix st <= sound_ix st' <= S (sound_ix st))%nat /\
  (forall e, fst (play_sound_alert env bot st) = Raise e ->
     afplay env (sound_ix st) = Some e /\ is_SubprocessError e = false).
Proof.
  pose proof (framed_play_sound_alert env bot st) as [Hl Hc Hm].
  revert Hl Hc Hm. cbv zeta.
  unfold play_sound_alert, try_except, afplay_sound_file.
  destruct (String.eqb (platform_system env) "Darwin"); simpl;
    [destruct (path_exists env (sound_ix st)); simpl;
       [destruct (afplay env (sound_ix st)) as [e0 |]; simpl;
          [destruct (is_SubprocessError e0) eqn:Hsub; simpl |] |] |].
  all: intros Hl Hc Hm.
  all: split; [split; first [assumption | reflexivity] |].
  all: split; [reflexivity |].
  all: split; [lia |].
  all: intros e He;
    first [discriminate He
          | injection He as <-; split; [reflexivity | assumption]].
Qed.

Lemma occurrences_cons a x types :
  occurrences a (x :: types) =
    ((if String.eqb x a then 1 else 0) + occurrences a types)%nat.
Proof. unfold occurrences. simpl. destruct (String.eqb x a); reflexivity. Qed.

Lemma dispatch_step env bot md c a st :
  let st' := snd (dispatch env bot md c a st) in
  channel_step st st' /\
  (smtp_ix st <= smtp_ix st' <= smtp_ix st + occurrences "email" [a])%nat /\
  (sound_ix st <= sound_ix st' <= sound_ix st + occurrences "sound" [a])%nat.
Proof.
  unfold dispatch, occurrences. simpl.
  destruct (String.eqb_spec a "email") as [-> | He]; simpl.
  - destruct (send_email_alert_step env bot md c st) as (H1 & H2 & H3).
    split; [exact H1 |]. split; lia.
  - destruct (String.eqb_spec a "sound") as [-> | Hs]; simpl.
    + destruct (play_sound_alert_step env bot st) as (H1 & H2 & H3 & _).
      split; [exact H1 |]. split; lia.
    + split; [apply channel_step_refl |]. split; lia.
Qed.

(** X16. A fan-out never touches the cooldown state, the flag or the
    clock and starts no fan-out of its own; it opens at most one SMTP
    session per "email" entry and makes at most one sound attempt per
    "sound" entry of the alert list. *)
Theorem fan_out_invariants (env : Env) (bot : Bot) (md : market_data)
    (c : PriceCondition) (types : list string) (st : State) :
  let st' := snd (fan_out env bot md c types st) in
  last_alert_time st' = last_alert_time st /\
  running st' = running st /\
  clock_ix st' = clock_ix st /\
  http_ix st' = http_ix st /\
  sleep_ix st' = sleep_ix st /\
  fan_outs (trace st') = fan_outs (trace st) /\
  (smtp_ix st <= smtp_ix st' <= smtp_ix st + occurrences "email" types)%nat /\
  (sound_ix st <= sound_ix st' <= sound_ix st + occurrences "sound" types)%nat.
Proof.
  cbv zeta.
  enough (H : channel_step st (snd (fan_out env bot md c types st)) /\
              (smtp_ix st <= smtp_ix (snd (fan_out env bot md c types st))
                 <= smtp_ix st + occurrences "email" types)%nat /\
              (sound_ix st <= sound_ix (snd (fan_out env bot md c types st))
                 <= sound_ix st + occurrences "sound" types)%nat).
  { destruct H as ([] & H2 & H3). repeat split; try assumption; lia. }
  revert st. induction types as [| a rest IH]; intros st.
  - simpl. split; [apply channel_step_refl |]. unfold occurrences. simpl. lia.
  - simpl. unfold bind.
    pose proof (dispatch_step env bot md c a st) as (D1 & D2 & D3).
    rewrite !(occurrences_cons _ a rest).
    unfold occurrences in D2, D3. simpl in D2, D3.
    destruct (dispatch env bot md c a st) as [[[] | e] st1]; simpl in *.
    + destruct (IH st1) as (I1 & I2 & I3).
      split; [eapply channel_step_trans; eassumption |].
      destruct (String.eqb a "email"), (String.eqb a "sound"); simpl in *; lia.
    + split; [exact D1 |].
      destruct (String.eqb a "email"), (String.eqb a "sound"); simpl in *; lia.
Qed.

Lemma send_email_alert_returns env bot md c st :
  email_dispatch_returns bot md ->
  fst (send_email_alert env bot md c st) = Ret tt.
Proof.
  intros (email & Hsec & H).
  rewrite (send_email_alert_section env bot md c st email Hsec).
  destruct H as [Hall | (Hp & Hv & [s Hs] & [pw Hpw] & [r Hr])].
  - rewrite Hall. reflexivity.
  - destruct (forallb truthy (snd <$> map_to_list email)); [| reflexivity].
    simpl. unfold bind.
    destruct (format_f (md_price md)); [discriminate Hp |].
    destruct (format_f (md_volume md)); [discriminate Hv |].
    simpl. rewrite Hs, Hpw, Hr. simpl.
    rewrite smtp_session_handled. reflexivity.
Qed.

(** X17. The failures a fan-out contains: when the email dispatch returns
    for the snapshot (or "email" is not configured as alert type) and the
    sound player raises nothing but [SubprocessError] (or "sound" is not
    configured), the fan-out over the whole alert list returns, in every
    state and whatever the SMTP sessions and the player do. *)
Theorem fan_out_returns (env : Env) (bot : Bot) (md : market_data)
    (c : PriceCondition) (types : list string) (st : State) :
  (In "email" types -> email_dispatch_returns bot md) ->
  (In "sound" types ->
     forall k e, afplay env k = Some e -> is_SubprocessError e = true) ->
  fst (fan_out env bot md c types st) = Ret tt.
Proof.
  revert st. induction types as [| a rest IH]; intros st Hemail Hsound;
    [reflexivity |].
  simpl. unfold bind.
  assert (Hd : fst (dispatch env bot md c a st) = Ret tt).
  { unfold dispatch.
    destruct (String.eqb_spec a "email") as [-> | He].
    - apply send_email_alert_returns. apply Hemail. left. reflexivity.
    - destruct (String.eqb_spec a "sound") as [-> | Hs]; [| reflexivity].
      destruct (play_sound_alert_step env bot st) as (_ & _ & _ & Hraise).
      destruct (play_sound_alert env bot st) as [[[] | e] st1]; [reflexivity |].
      destruct (Hraise e eq_refl) as [Ha Hsub].
      rewrite (Hsound (or_introl eq_refl) _ _ Ha) in Hsub. discriminate Hsub. }
  destruct (dispatch env bot md c a st) as [[[] | e] st1]; [| discriminate Hd].
  apply IH.
  - intros Hin. apply Hemail. right. exact Hin.
  - intros Hin. apply Hsound. right. exact Hin.
Qed.

Lemma fan_out_returns_witness :
  fst (fan_out (pepe_env (pepe_body true)) (pepe_bot ["email"; "sound"] 300)
         (pepe_data true) (mkPriceCondition (1 # 1) "above")
         ["email"; "sound"; "telegram"] initial_state) = Ret tt.
Proof.
  apply (fan_out_returns (pepe_env (pepe_body true))
           (pepe_bot ["email"; "sound"] 300) (pepe_data true)
           (mkPriceCondition (1 # 1) "above") ["email"; "sound"; "telegram"]
           initial_state).
  - intros _. eexists. split; [vm_compute; reflexivity |].
    right. repeat split; try reflexivity; eexists; vm_compute; reflexivity.
  - intros _ k e H. discriminate H.
Defined.

(** ** Further properties of one cycle *)

Lemma get_current_price_some env bot st md :
  fst (get_current_price env bot st) = Ret (Some md) ->
  get_current_price env bot st = (Ret (Some md), snd (get_current_price env bot st)).
Proof.
  destruct (get_current_price env bot st) as [r s]. simpl. intros ->. reflexivity.
Qed.

(** X18. The price is only required to be present, not to be a number
    that can be rendered: a fetched price that cannot be formatted makes
    the cycle raise at the first log line after the fetch, before any
    condition is evaluated and before the sleep, and the exception ends the
    loop. The exception is [TypeError] for null, a list or an object,
    [ValueError] for a string and [OverflowError] for an integer beyond the
    range of a double. *)
Theorem unformattable_price_aborts (env : Env) (bot : Bot) (st : State)
    (md : market_data) (e : exn) :
  fst (get_current_price env bot st) = Ret (Some md) ->
  format_f (md_price md) = inl e ->
  let st1 := snd (get_current_price env bot st) in
  match md_price md with
  | PNone | PList _ | PDict _ => e = TypeError
  | PStr _ => e = ValueError
  | PNum (Fin q) => e = OverflowError /\ exists b, round_double q = Inf b
  | PNum _ | PBool _ => False
  end /\
  poll env bot st = (Raise e, st1) /\
  cycle env bot st = (Raise e, st1) /\
  (running st = true ->
   forall fuel, while_running env bot (S fuel) st = Some (Raise e, st1)).
Proof.
  intros Hfetch Hprice st1.
  assert (Hpoll : poll env bot st = (Raise e, st1)).
  { unfold poll, bind. rewrite (get_current_price_some env bot st md Hfetch).
    fold st1. rewrite Hprice. reflexivity. }
  assert (Hcycle : cycle env bot st = (Raise e, st1)).
  { unfold cycle, bind. rewrite Hpoll. reflexivity. }
  split.
  { destruct (md_price md) as [| b | [q | b |] | s | l | d];
      simpl in Hprice; try discriminate Hprice;
      try (injection Hprice as <-; reflexivity).
    destruct (round_double q) as [r | b |] eqn:E; try discriminate Hprice.
    injection Hprice as <-. split; [reflexivity | exists b; reflexivity]. }
  split; [exact Hpoll |]. split; [exact Hcycle |].
  intros Hrun fuel. simpl. rewrite Hrun, Hcycle. reflexivity.
Qed.

Lemma unformattable_price_aborts_witness :
  while_running (pepe_env null_price_body) (pepe_bot ["sound"] 300) 1
    initial_state
  = Some (Raise TypeError,
          snd (get_current_price (pepe_env null_price_body)
                 (pepe_bot ["sound"] 300) initial_state)).
Proof.
  apply (unformattable_price_aborts (pepe_env null_price_body)
           (pepe_bot ["sound"] 300) initial_state
           (mkMarketData PNone PNone PNone) TypeError).
  - vm_compute. reflexivity.
  - reflexivity.
  - reflexivity.
Defined.

Lemma filter_nil_forallb {A} (f : A -> bool) (l : list A) :
  List.filter f l = [] -> forallb (fun x => negb (f x)) l = true.
Proof.
  induction l as [| a l IH]; simpl; [reflexivity |].
  destruct (f a); [discriminate | exact IH].
Qed.

(** X19. When the fetched price meets no condition, the cycle logs the
    price and does nothing else before its sleep: the clock is not read,
    no channel is used, and the cooldown state is unchanged. *)
Theorem no_condition_met (env : Env) (bot : Bot) (st : State)
    (md : market_data) (price : number) :
  fst (get_current_price env bot st) = Ret (Some md) ->
  format_f (md_price md) = inr price ->
  met_conditions bot price = [] ->
  poll env bot st =
    logging INFO (MsgCurrentPrice price (md_change md))
      (snd (get_current_price env bot st)).
Proof.
  intros Hfetch Hprice Hmet.
  unfold poll. unfold bind at 1.
  rewrite (get_current_price_some env bot st md Hfetch), Hprice.
  cbn [lift]. rewrite bind_ret, bind_logging.
  rewrite <- (app_nil_r (conditions bot)).
  rewrite check_conditions_skip by (apply filter_nil_forallb; exact Hmet).
  reflexivity.
Qed.

Lemma no_condition_met_witness :
  poll scenario_env scenario_bot initial_state =
    logging INFO (MsgCurrentPrice (inject_Z 70) PNone)
      (snd (get_current_price scenario_env scenario_bot initial_state)).
Proof.
  apply (no_condition_met scenario_env scenario_bot initial_state
           (mkMarketData (PNum (inject_Z 70)) PNone PNone) (inject_Z 70)%Q).
  - vm_compute. reflexivity.
  - reflexivity.
  - vm_compute. reflexivity.
Defined.

(** While the gate stays closed, each met condition reads the clock once
    and nothing else happens. *)
Lemma check_conditions_closed_exact env bot md price cs : forall st t0,
  last_alert_time st = Some t0 ->
  (forall k,
     (clock_ix st <= k <
        clock_ix st + length (List.filter (fun c => is_met c price) cs))%nat ->
     cooled_down bot (clock env k) t0 = false) ->
  check_conditions env bot md price cs st =
    (Ret tt,
     {| last_alert_time := last_alert_time st; running := running st;
        trace := trace st;
        clock_ix := clock_ix st
                    + length (List.filter (fun c => is_met c price) cs);
        http_ix := http_ix st; smtp_ix := smtp_ix st;
        sound_ix := sound_ix st; sleep_ix := sleep_ix st |}).
Proof.
  induction cs as [| c cs IH]; intros st t0 Hlast Hclock.
  - simpl. rewrite Nat.add_0_r. destruct st; reflexivity.
  - simpl. simpl in Hclock. destruct (is_met c price) eqn:Hmet; simpl in Hclock.
    + unfold bind at 1. unfold bind at 1.
      rewrite should_send_alert_eq, Hlast.
      assert (Hc : cooled_down bot (clock env (clock_ix st)) t0 = false).
      { apply Hclock. simpl. lia. }
      rewrite Hc. unfold ret. cbv beta iota.
      rewrite (IH (snd (time_time env st)) t0).
      * simpl. rewrite ?Hlast. do 2 f_equal. lia.
      * exact Hlast.
      * intros k Hk. apply Hclock. simpl in *. lia.
    + unfold bind at 1. simpl. apply (IH st t0 Hlast).
      intros k Hk. apply Hclock. exact Hk.
Qed.

(** X20. While the gate is closed at every clock reading of a cycle, the
    cycle alerts nobody even if conditions are met: after the fetch it
    logs the price, reads the clock once per met condition, and leaves the
    recorded alert time as it was. *)
Theorem closed_gate_suppresses (env : Env) (bot : Bot) (st : State)
    (md : market_data) (price : number) (t0 : Q) :
  fst (get_current_price env bot st) = Ret (Some md) ->
  format_f (md_price md) = inr price ->
  last_alert_time st = Some t0 ->
  (forall k,
     (clock_ix st <= k < clock_ix st + length (met_conditions bot price))%nat ->
     cooled_down bot (clock env k) t0 = false) ->
  let st1 := snd (get_current_price env bot st) in
  exists st',
    poll env bot st = (Ret tt, st') /\
    trace st' =
      (trace st1 ++ [Log INFO (MsgCurrentPrice price (md_change md))])%list /\
    last_alert_time st' = Some t0 /\
    clock_ix st' = (clock_ix st + length (met_conditions bot price))%nat /\
    smtp_ix st' = smtp_ix st /\
    sound_ix st' = sound_ix st.
Proof.
  intros Hfetch Hprice Hlast Hclock st1.
  pose proof (framed_get_current_price env bot st) as [Fl Fc _]. fold st1 in Fl, Fc.
  destruct (requests_get_json_state env bot st) as (_ & _ & Hsm & Hso & _).
  assert (Hst1 : smtp_ix st1 = smtp_ix st /\ sound_ix st1 = sound_ix st).
  { subst st1.
    destruct (get_current_price_cases env bot st) as [[md' H] | [m H]];
      rewrite H; simpl; auto. }
  eexists. split.
  { unfold poll. unfold bind at 1.
    rewrite (get_current_price_some env bot st md Hfetch), Hprice. fold st1.
    cbn [lift]. rewrite bind_ret, bind_logging.
    apply (check_conditions_closed_exact env bot md price (conditions bot) _ t0).
    - simpl. rewrite Fl. exact Hlast.
    - simpl. rewrite Fc. exact Hclock. }
  simpl. rewrite Fl, Fc. destruct Hst1 as [-> ->]. repeat split. exact Hlast.
Qed.

Lemma closed_gate_suppresses_witness :
  exists st',
    poll (frozen_clock_env (1100 # 1)) (pepe_bot ["sound"] 300)
      (alerted_state (1000 # 1)) = (Ret tt, st') /\
    last_alert_time st' = Some (1000 # 1) /\
    sound_ix st' = 0%nat.
Proof.
  destruct (closed_gate_suppresses (frozen_clock_env (1100 # 1))
              (pepe_bot ["sound"] 300) (alerted_state (1000 # 1))
              (pepe_data true) (5 # 1)%Q (1000 # 1))
    as (st' & Hpoll & _ & Hlast & _ & _ & Hsound).
  - vm_compute. reflexivity.
  - reflexivity.
  - reflexivity.
  - intros k _. vm_compute. reflexivity.
  - exists st'. repeat split; assumption.
Defined.

(** ** Invariants of the loop *)

Lemma eval_step_refl st : eval_step 0 st st.
Proof. split; try reflexivity; try lia; auto. Qed.

Lemma eval_step_trans n m st1 st2 st3 :
  eval_step n st1 st2 -> eval_step m st2 st3 -> eval_step (n + m) st1 st3.
Proof.
  intros [] []. split; try congruence; try lia.
  - intros H. rewrite es_last1, es_last0; [reflexivity | lia | lia].
  - auto.
Qed.

Lemma eval_step_weaken n m st st' :
  (n <= m)%nat -> eval_step n st st' -> eval_step m st st'.
Proof. intros Hnm []. split; try assumption; lia. Qed.

Lemma eval_step_channel st st' :
  channel_step st st' ->
  (smtp_ix st <= smtp_ix st')%nat -> (sound_ix st <= sound_ix st')%nat ->
  eval_step 0 st st'.
Proof.
  intros [] Hsm Hso. split; try assumption; try lia.
  - intros _. assumption.
  - rewrite cs_last0. auto.
Qed.

Lemma fan_out_step env bot md c types : forall st,
  channel_step st (snd (fan_out env bot md c types st)) /\
  (smtp_ix st <= smtp_ix (snd (fan_out env bot md c types st))
     <= smtp_ix st + occurrences "email" types)%nat /\
  (sound_ix st <= sound_ix (snd (fan_out env bot md c types st))
     <= sound_ix st + occurrences "sound" types)%nat.
Proof.
  induction types as [| a rest IH]; intros st.
  - simpl. split; [apply channel_step_refl |]. unfold occurrences. simpl. lia.
  - simpl. unfold bind.
    pose proof (dispatch_step env bot md c a st) as (D1 & D2 & D3).
    rewrite !(occurrences_cons _ a rest).
    unfold occurrences in D2, D3. simpl in D2, D3.
    destruct (dispatch env bot md c a st) as [[[] | e] st1]; simpl in *.
    + destruct (IH st1) as (I1 & I2 & I3).
      split; [eapply channel_step_trans; eassumption |].
      destruct (String.eqb a "email"), (String.eqb a "sound"); simpl in *; lia.
    + split; [exact D1 |].
      destruct (String.eqb a "email"), (String.eqb a "sound"); simpl in *; lia.
Qed.

(** The body of the loop over the conditions, for one condition. *)
Lemma condition_step env bot md price c st :
  eval_step 1 st
    (snd ((if is_met c price then
             allowed <- should_send_alert env bot ;;
             if allowed then
               logging INFO (MsgAlertConditionMet c) ;;
               fan_out env bot md c (alert_types bot) ;;
               now <- time_time env ;;
               set_last_alert_time now
             else ret tt
           else ret tt) st)).
Proof.
  destruct (is_met c price);
    [| apply (eval_step_weaken 0); [lia | apply eval_step_refl]].
  unfold bind at 1. rewrite should_send_alert_eq.
  assert (Hfan : forall s, last_alert_time s = last_alert_time st ->
            running s = running st -> http_ix s = http_ix st ->
            sleep_ix s = sleep_ix st -> smtp_ix s = smtp_ix st ->
            sound_ix s = sound_ix st -> fan_outs (trace s) = fan_outs (trace st) ->
            (clock_ix st <= clock_ix s <= S (clock_ix st))%nat ->
            eval_step 1 st
              (snd ((logging INFO (MsgAlertConditionMet c) ;;
                     fan_out env bot md c (alert_types bot) ;;
                     now <- time_time env ;;
                     set_last_alert_time now) s))).
  { intros s Hl Hr Hh Hsl Hsm Hso Hm Hc.
    rewrite bind_logging. unfold bind.
    set (s1 := snd (logging INFO (MsgAlertConditionMet c) s)).
    assert (Hm1 : fan_outs (trace s1) = S (fan_outs (trace st))).
    { subst s1. simpl. rewrite fan_outs_app, Hm. unfold fan_outs at 2. simpl. lia. }
    destruct (fan_out_step env bot md c (alert_types bot) s1) as ([] & F2 & F3).
    destruct (fan_out env bot md c (alert_types bot) s1) as [[[] | e] s2];
      simpl in *; split; simpl; try congruence; try lia; eauto. }
  destruct (last_alert_time st) as [last |] eqn:Hlast.
  - destruct (cooled_down _ _ _); cbv beta iota.
    + apply Hfan; simpl; try reflexivity; try assumption; lia.
    + split; simpl; try reflexivity; try lia; try rewrite Hlast; auto.
  - cbv beta iota. apply Hfan; try reflexivity; try assumption; lia.
Qed.

Lemma check_conditions_step env bot md price cs : forall st,
  eval_step (length cs) st (snd (check_conditions env bot md price cs st)).
Proof.
  induction cs as [| c cs IH]; intros st; [apply eval_step_refl |].
  pose proof (condition_step env bot md price c st) as Hc.
  cbn [check_conditions]. unfold bind at 1.
  match type of Hc with
  | eval_step _ _ (snd (?B st)) => remember (B st) as r eqn:EB in *
  end.
  destruct r as [[[] | e] st1]; simpl in Hc.
  - change (length (c :: cs)) with (1 + length cs)%nat.
    eapply eval_step_trans; [exact Hc | apply IH].
  - simpl. eapply eval_step_weaken; [| exact Hc]. lia.
Qed.

Lemma get_current_price_effects env bot st :
  let st1 := snd (get_current_price env bot st) in
  http_ix st1 = S (http_ix st) /\
  channel_step st
    {| last_alert_time := last_alert_time st1; running := running st;
       trace := trace st1; clock_ix := clock_ix st1; http_ix := http_ix st;
       smtp_ix := smtp_ix st1; sound_ix := sound_ix st1;
       sleep_ix := sleep_ix st1 |} /\
  smtp_ix st1 = smtp_ix st /\
  sound_ix st1 = sound_ix st /\
  running st1 = (if signal_in_fetch env (http_ix st) then false else running st).
Proof.
  destruct (requests_get_json_state env bot st)
    as (Hl & Hc & Hsm & Hso & Hsl & Hh & Hr & Ht).
  pose proof (framed_get_current_price env bot st) as [Fl Fc Fm].
  destruct (get_current_price_cases env bot st) as [[md H] | [m H]];
    rewrite H in *; simpl in *; repeat split; assumption.
Qed.

Lemma time_sleep_effects env secs st :
  let st' := snd (time_sleep env secs st) in
  last_alert_time st' = last_alert_time st /\
  clock_ix st' = clock_ix st /\
  http_ix st' = http_ix st /\
  smtp_ix st' = smtp_ix st /\
  sound_ix st' = sound_ix st /\
  fan_outs (trace st') = fan_outs (trace st) /\
  (running st' = true -> running st = true) /\
  (signal_in_sleep env (sleep_ix st) = None -> running st' = running st) /\
  (sleep_ix st <= sleep_ix st' <= S (sleep_ix st))%nat /\
  (fst (time_sleep env secs st) = Ret tt -> sleep_ix st' = S (sleep_ix st)) /\
  ((secs < 0)%Z -> time_sleep env secs st = (Raise ValueError, st)).
Proof.
  unfold time_sleep. destruct (secs <? 0)%Z eqn:E.
  - simpl. repeat split; try reflexivity; try lia; auto. discriminate.
  - apply Z.ltb_ge in E.
    destruct (signal_in_sleep env (sleep_ix st)) as [d |]; simpl;
      [destruct (Qle_bool 0 d && Qle_bool d (inject_Z secs)); simpl |].
    all: repeat split.
    all: try reflexivity; try lia.
    all: try (intros; first [congruence | lia]).
    all: rewrite ?fan_outs_app; unfold fan_outs; simpl; lia.
Qed.

(** One cycle, from the state the fetch left to the state before the
    sleep. *)
Lemma poll_step env bot st :
  eval_step (length (conditions bot)) (snd (get_current_price env bot st))
    (snd (poll env bot st)).
Proof.
  unfold poll. unfold bind at 1.
  destruct (get_current_price_cases env bot st) as [[md H] | [m H]]; rewrite H;
    simpl.
  2: { eapply eval_step_weaken; [| apply eval_step_refl]. lia. }
  unfold bind at 1.
  destruct (format_f (md_price md)) as [e | price]; simpl.
  { eapply eval_step_weaken; [| apply eval_step_refl]. lia. }
  rewrite bind_logging.
  change (length (conditions bot)) with (0 + length (conditions bot))%nat.
  eapply eval_step_trans; [| apply check_conditions_step].
  apply eval_step_channel; simpl; try lia.
  apply (channel_step_logging INFO). reflexivity.
Qed.

Lemma cycle_sleep env bot st :
  match fst (poll env bot st) with
  | Ret _ =>
      cycle env bot st = time_sleep env (check_interval bot) (snd (poll env bot st))
  | Raise e => cycle env bot st = (Raise e, snd (poll env bot st))
  end.
Proof.
  unfold cycle, bind. destruct (poll env bot st) as [[[] | e] st1]; reflexivity.
Qed.

Lemma cycle_facts env bot st :
  let st1 := snd (get_current_price env bot st) in
  let st2 := snd (poll env bot st) in
  let st' := snd (cycle env bot st) in
  eval_step (length (conditions bot)) st1 st2 /\
  last_alert_time st' = last_alert_time st2 /\
  clock_ix st' = clock_ix st2 /\
  http_ix st' = http_ix st2 /\
  smtp_ix st' = smtp_ix st2 /\
  sound_ix st' = sound_ix st2 /\
  fan_outs (trace st') = fan_outs (trace st2) /\
  (running st' = true -> running st2 = true) /\
  (signal_in_sleep env (sleep_ix st2) = None -> running st' = running st2) /\
  (sleep_ix st2 <= sleep_ix st' <= S (sleep_ix st2))%nat /\
  (fst (cycle env bot st) = Ret tt -> sleep_ix st' = S (sleep_ix st2)).
Proof.
  cbv zeta. split; [apply poll_step |].
  pose proof (cycle_sleep env bot st) as Hcs.
  pose proof (time_sleep_effects env (check_interval bot) (snd (poll env bot st)))
    as (T1 & T2 & T3 & T4 & T5 & T6 & T7 & T8 & T9 & T10 & _).
  destruct (fst (poll env bot st)) as [[] | e]; rewrite Hcs.
  - repeat split; assumption || apply T9.
  - simpl. repeat split; try reflexivity; try lia; auto. discriminate.
Qed.

(** X21. Every cycle makes exactly one price request and sleeps at most
    once (exactly once when it returns); it reads the clock at most twice
    per condition, and it never sets the flag back: a flag that is down
    before the cycle is down after it. *)
Theorem cycle_counters (env : Env) (bot : Bot) (st : State) :
  let st' := snd (cycle env bot st) in
  http_ix st' = S (http_ix st) /\
  (sleep_ix st <= sleep_ix st' <= S (sleep_ix st))%nat /\
  (fst (cycle env bot st) = Ret tt -> sleep_ix st' = S (sleep_ix st)) /\
  (clock_ix st <= clock_ix st' <= clock_ix st + 2 * length (conditions bot))%nat /\
  (smtp_ix st <= smtp_ix st')%nat /\
  (sound_ix st <= sound_ix st')%nat /\
  (running st' = true -> running st = true).
Proof.
  destruct (cycle_facts env bot st)
    as ([] & C1 & C2 & C3 & C4 & C5 & C6 & C7 & C8 & C9 & C10).
  destruct (get_current_price_effects env bot st) as (G1 & [] & G3 & G4 & G5).
  simpl in *. cbv zeta.
  repeat split; try lia.
  - intros H. rewrite C10 by exact H. lia.
  - intros H. apply C7 in H. rewrite es_running0, G5 in H.
    destruct (signal_in_fetch env (http_ix st)); [discriminate H | exact H].
Qed.

(** X22. The cooldown bookkeeping of a cycle: it starts at most one
    fan-out per condition; the recorded alert time changes only in a cycle
    that started a fan-out; and an alert time, once recorded, is never
    forgotten. *)
Theorem cycle_cooldown_bookkeeping (env : Env) (bot : Bot) (st : State) :
  let st' := snd (cycle env bot st) in
  (fan_outs (trace st) <= fan_outs (trace st')
     <= fan_outs (trace st) + length (conditions bot))%nat /\
  (fan_outs (trace st') = fan_outs (trace st) ->
     last_alert_time st' = last_alert_time st) /\
  (is_Some (last_alert_time st) -> is_Some (last_alert_time st')).
Proof.
  destruct (cycle_facts env bot st)
    as ([] & C1 & C2 & C3 & C4 & C5 & C6 & _).
  destruct (get_current_price_effects env bot st) as (G1 & [] & _).
  simpl in *. cbv zeta.
  split; [lia |]. split.
  - intros H. rewrite C1, es_last0; [assumption | lia].
  - intros H. rewrite C1. apply es_alerted0. rewrite cs_last0. exact H.
Qed.

Lemma cycle_cooldown_bookkeeping_witness :
  last_alert_time (snd (cycle scenario_env scenario_bot initial_state)) = None.
Proof.
  apply (proj1 (proj2 (cycle_cooldown_bookkeeping scenario_env scenario_bot
                         initial_state))).
  vm_compute. reflexivity.
Defined.

Lemma cycle_counters_witness :
  sleep_ix (snd (cycle scenario_env scenario_bot initial_state)) = 1%nat.
Proof.
  apply (proj1 (proj2 (proj2 (cycle_counters scenario_env scenario_bot
                                initial_state)))).
  vm_compute. reflexivity.
Defined.

Lemma cycle_flag_no_signals env bot st :
  no_signals env -> running (snd (cycle env bot st)) = running st.
Proof.
  intros [Hf Hs].
  destruct (cycle_facts env bot st) as ([] & _ & _ & _ & _ & _ & _ & _ & C8 & _).
  destruct (get_current_price_effects env bot st) as (_ & _ & _ & _ & G5).
  rewrite C8 by apply Hs. rewrite es_running0, G5, Hf. reflexivity.
Qed.

(** X23. The loop has no exit of its own: in a world that never delivers
    a termination signal, a loop entered with the flag up never returns;
    it can only end by an exception of one of its cycles. *)
Theorem loop_needs_signal (env : Env) (bot : Bot) (fuel : nat) (st : State)
    (r : result unit) (st' : State) :
  no_signals env ->
  running st = true ->
  while_running env bot fuel st = Some (r, st') ->
  exists e, r = Raise e.
Proof.
  intros Hno. revert st.
  induction fuel as [| fuel IH]; intros st Hrun Hloop; [discriminate Hloop |].
  simpl in Hloop. rewrite Hrun in Hloop.
  pose proof (cycle_flag_no_signals env bot st Hno) as Hflag.
  destruct (cycle env bot st) as [[[] | e] st1]; simpl in Hflag.
  - apply (IH st1); [congruence | exact Hloop].
  - injection Hloop as <- _. eauto.
Qed.

Lemma loop_needs_signal_witness :
  exists e, Raise (A := unit) TypeError = Raise e.
Proof.
  apply (loop_needs_signal (pepe_env null_price_body) (pepe_bot ["sound"] 300)
           3 initial_state (Raise TypeError)
           (snd (get_current_price (pepe_env null_price_body)
                   (pepe_bot ["sound"] 300) initial_state))).
  - split; reflexivity.
  - reflexivity.
  - vm_compute. reflexivity.
Defined.

(** X24. Shutdown is not pre-emptive: when the signal arrives during the
    price request, the cycle still runs to its end, evaluation, dispatch
    and sleep included, and the loop ends at the next check of the
    flag. *)
Theorem signal_during_fetch (env : Env) (bot : Bot) (st : State) :
  running st = true ->
  signal_in_fetch env (http_ix st) = true ->
  fst (cycle env bot st) = Ret tt ->
  let st' := snd (cycle env bot st) in
  running st' = false /\
  sleep_ix st' = S (sleep_ix st) /\
  poll env bot st = (Ret tt, snd (poll env bot st)) /\
  forall fuel, while_running env bot (S (S fuel)) st = Some (Ret tt, st').
Proof.
  intros Hrun Hsig Hret st'.
  destruct (cycle_facts env bot st)
    as ([] & _ & _ & _ & _ & _ & _ & C7 & _ & _ & C10).
  destruct (get_current_price_effects env bot st) as (_ & Hch & _ & _ & G5).
  pose proof (cs_sleep _ _ Hch) as Hsl. simpl in Hsl. clear Hch.
  rewrite Hsig in G5.
  assert (Hdown : running st' = false).
  { subst st'. destruct (running (snd (cycle env bot st))) eqn:E; [| reflexivity].
    rewrite C7 in es_running0 by reflexivity. congruence. }
  split; [exact Hdown |].
  assert (Hpoll : poll env bot st = (Ret tt, snd (poll env bot st))).
  { pose proof (cycle_sleep env bot st) as Hcs.
    destruct (poll env bot st) as [[[] | e] st2]; [reflexivity |].
    simpl in Hcs. rewrite Hcs in Hret. discriminate Hret. }
  split.
  { subst st'. rewrite C10 by exact Hret. lia. }
  split; [exact Hpoll |].
  intros fuel.
  assert (Hcycle : cycle env bot st = (Ret tt, st')).
  { subst st'. destruct (cycle env bot st) as [[[] | e] s]; [reflexivity |].
    discriminate Hret. }
  rewrite (while_running_step env bot (S fuel) st st' Hrun Hcycle).
  apply while_running_stopped. exact Hdown.
Qed.

Lemma signal_during_fetch_witness :
  while_running sigterm_in_fetch_env (pepe_bot ["sound"] 300) 2 initial_state
  = Some (Ret tt,
          snd (cycle sigterm_in_fetch_env (pepe_bot ["sound"] 300) initial_state)) /\
  sound_ix (snd (cycle sigterm_in_fetch_env (pepe_bot ["sound"] 300)
                   initial_state)) = 1%nat.
Proof.
  split; [| vm_compute; reflexivity].
  apply (signal_during_fetch sigterm_in_fetch_env (pepe_bot ["sound"] 300)
           initial_state).
  - reflexivity.
  - reflexivity.
  - vm_compute. reflexivity.
Defined.

(** X25. The poll interval is not validated: with a negative interval a
    cycle does its whole work (fetch, evaluation, dispatch) and then
    raises [ValueError] at the sleep, which ends the loop after that one
    cycle. *)
Theorem negative_interval_raises (env : Env) (bot : Bot) (st : State) :
  (check_interval bot < 0)%Z ->
  fst (poll env bot st) = Ret tt ->
  cycle env bot st = (Raise ValueError, snd (poll env bot st)) /\
  (running st = true ->
   forall fuel,
     while_running env bot (S fuel) st
     = Some (Raise ValueError, snd (poll env bot st))).
Proof.
  intros Hneg Hpoll.
  assert (Hcycle : cycle env bot st = (Raise ValueError, snd (poll env bot st))).
  { pose proof (cycle_sleep env bot st) as Hcs. rewrite Hpoll in Hcs.
    rewrite Hcs.
    apply (time_sleep_effects env (check_interval bot) (snd (poll env bot st))).
    exact Hneg. }
  split; [exact Hcycle |].
  intros Hrun fuel. simpl. rewrite Hrun, Hcycle. reflexivity.
Qed.

Lemma negative_interval_raises_witness :
  while_running (pepe_env (pepe_body true)) hasty_bot 1 initial_state
  = Some (Raise ValueError,
          snd (poll (pepe_env (pepe_body true)) hasty_bot initial_state)) /\
  sound_ix (snd (poll (pepe_env (pepe_body true)) hasty_bot initial_state))
  = 1%nat.
Proof.
  split; [| vm_compute; reflexivity].
  apply (negative_interval_raises (pepe_env (pepe_body true)) hasty_bot
           initial_state).
  - reflexivity.
  - vm_compute. reflexivity.
  - reflexivity.
Defined.

Lemma announce_conditions (cs : list PriceCondition) (st : State) :
  fold_right (fun c k => logging INFO (MsgMonitoring c) ;; k) (ret tt) cs st
  = (Ret tt,
     {| last_alert_time := last_alert_time st; running := running st;
        trace := trace st ++ List.map (fun c => Log INFO (MsgMonitoring c)) cs;
        clock_ix := clock_ix st; http_ix := http_ix st;
        smtp_ix := smtp_ix st; sound_ix := sound_ix st;
        sleep_ix := sleep_ix st |}).
Proof.
  revert st. induction cs as [| c cs IH]; intros st; simpl.
  - rewrite app_nil_r. destruct st; reflexivity.
  - rewrite bind_logging, IH. simpl. rewrite <- app_assoc. reflexivity.
Qed.

Lemma announce_spec (bot : Bot) (st : State) :
  announce bot st = (Ret tt, announced bot st).
Proof.
  unfold announce. rewrite !bind_logging, announce_conditions.
  unfold announced. simpl. rewrite <- !app_assoc. reflexivity.
Qed.

(** X26. [start_monitoring] first logs the coin, the alert types and one
    line per condition in configuration order, without touching anything
    else. "Monitoring stopped." is logged when the loop ends by the flag,
    and is not logged when a cycle raises; with the flag already down no
    request is made at all. *)
Theorem start_monitoring_frames_loop (env : Env) (bot : Bot) (fuel : nat)
    (st : State) :
  (forall st2,
     while_running env bot fuel (announced bot st) = Some (Ret tt, st2) ->
     start_monitoring env bot fuel st = Some (logging INFO MsgStopped st2)) /\
  (forall e st2,
     while_running env bot fuel (announced bot st) = Some (Raise e, st2) ->
     start_monitoring env bot fuel st = Some (Raise e, st2)) /\
  (running st = false ->
   start_monitoring env bot (S fuel) st
   = Some (logging INFO MsgStopped (announced bot st))).
Proof.
  unfold start_monitoring. rewrite announce_spec.
  split; [| split].
  - intros st2 H. rewrite H. reflexivity.
  - intros e st2 H. rewrite H. reflexivity.
  - intros Hrun. rewrite while_running_stopped by exact Hrun. reflexivity.
Qed.

Lemma start_monitoring_frames_loop_witness :
  start_monitoring quiet_env demo_bot 1 stopped_state
  = Some (logging INFO MsgStopped (announced demo_bot stopped_state)).
Proof.
  apply (proj2 (proj2 (start_monitoring_frames_loop quiet_env demo_bot 0
                         stopped_state))).
  reflexivity.
Defined.

(** X27. The gate is driven by time alone: checking it changes nothing
    but the number of clock readings taken, and once it is open for a
    recorded alert time it is open at every later clock reading, until
    another alert time is recorded. *)
Theorem gate_is_time_driven (env : Env) (bot : Bot) (st st' : State) (t0 : Q) :
  last_alert_time st = Some t0 ->
  last_alert_time st' = Some t0 ->
  (clock env (clock_ix st) <= clock env (clock_ix st'))%Q ->
  (gate_open env bot st -> gate_open env bot st') /\
  snd (should_send_alert env bot st) = snd (time_time env st) /\
  running (snd (should_send_alert env bot st)) = running st /\
  last_alert_time (snd (should_send_alert env bot st)) = Some t0 /\
  trace (snd (should_send_alert env bot st)) = trace st.
Proof.
  intros Hlast Hlast' Hle.
  unfold gate_open. rewrite !should_send_alert_eq, Hlast, Hlast'. simpl.
  repeat split; try assumption.
  intros [= H]. f_equal. exact (cooled_down_mono _ _ _ _ Hle H).
Qed.

Lemma gate_is_time_driven_witness :
  gate_open (pepe_env (pepe_body true)) (pepe_bot ["sound"] 1)
    (snd (time_time (pepe_env (pepe_body true))
            (snd (time_time (pepe_env (pepe_body true))
                    (alerted_state (inject_Z 1000)))))).
Proof.
  apply (proj1 (gate_is_time_driven (pepe_env (pepe_body true))
                  (pepe_bot ["sound"] 1)
                  (snd (time_time (pepe_env (pepe_body true))
                          (alerted_state (inject_Z 1000))))
                  (snd (time_time (pepe_env (pepe_body true))
                          (snd (time_time (pepe_env (pepe_body true))
                                  (alerted_state (inject_Z 1000))))))
                  (inject_Z 1000) eq_refl eq_refl ltac:(vm_compute; discriminate))).
  vm_compute. reflexivity.
Defined.

(** ** The rate limit *)

Lemma spaced_frame env bot t1 s s' :
  last_alert_time s' = last_alert_time s ->
  (clock_ix s <= clock_ix s')%nat ->
  spaced env bot t1 s -> spaced env bot t1 s'.
Proof.
  intros Hl Hc [H | (j & Hj & H & Hw)].
  - left. congruence.
  - right. exists j. repeat split; [lia | congruence | exact Hw].
Qed.

Lemma condition_spaced env bot md price c t1 st :
  monotone_clock env ->
  spaced env bot t1 st ->
  spaced env bot t1
    (snd ((if is_met c price then
             allowed <- should_send_alert env bot ;;
             if allowed then
               logging INFO (MsgAlertConditionMet c) ;;
               fan_out env bot md c (alert_types bot) ;;
               now <- time_time env ;;
               set_last_alert_time now
             else ret tt
           else ret tt) st)).
Proof.
  intros Hmono Hsp. destruct (is_met c price); [| exact Hsp].
  assert (Hsome : exists last, last_alert_time st = Some last /\
            (last = t1 \/
             exists j, (j < clock_ix st)%nat /\ last = clock env j /\
               cooled_down bot (clock env j) t1 = true)).
  { destruct Hsp as [H | (j & Hj & H & Hw)]; eauto 10. }
  destruct Hsome as (last & Hlast & Hcase).
  unfold bind at 1. rewrite should_send_alert_eq, Hlast.
  destruct (cooled_down bot (clock env (clock_ix st)) last) eqn:Hgate;
    cbv beta iota.
  2: { apply (spaced_frame env bot t1 st); simpl; [reflexivity | lia | exact Hsp]. }
  rewrite bind_logging. unfold bind.
  set (s1 := snd (logging INFO (MsgAlertConditionMet c) (snd (time_time env st)))).
  pose proof (framed_fan_out env bot md c (alert_types bot) s1) as [Fl Fc _].
  destruct (fan_out env bot md c (alert_types bot) s1) as [[[] | e] s2];
    simpl in Fl, Fc.
  - simpl. right. exists (clock_ix s2). simpl.
    split; [lia |]. split; [reflexivity |].
    rewrite Fc.
    pose proof (Hmono (clock_ix st) (S (clock_ix st)) ltac:(lia)) as Hstep.
    destruct Hcase as [-> | (j & Hj & -> & Hw)].
    + exact (cooled_down_mono _ _ _ _ Hstep Hgate).
    + pose proof (Hmono j (S (clock_ix st)) ltac:(lia)) as Hj'.
      exact (cooled_down_mono _ _ _ _ Hj' Hw).
  - simpl. apply (spaced_frame env bot t1 st); [congruence | lia | exact Hsp].
Qed.

Lemma check_conditions_spaced env bot md price cs t1 : forall st,
  monotone_clock env ->
  spaced env bot t1 st ->
  spaced env bot t1 (snd (check_conditions env bot md price cs st)).
Proof.
  induction cs as [| c cs IH]; intros st Hmono Hsp; [exact Hsp |].
  pose proof (condition_spaced env bot md price c t1 st Hmono Hsp) as Hc.
  cbn [check_conditions]. unfold bind at 1.
  match type of Hc with
  | spaced _ _ _ (snd (?B st)) => remember (B st) as r eqn:EB in *
  end.
  destruct r as [[[] | e] st1]; simpl in Hc; [| exact Hc].
  apply IH; assumption.
Qed.

(** X28. The rate limit over a cycle: with a clock that never goes back,
    the alert time recorded after a cycle is either the one recorded
    before it, or one that the gate finds at least a cooldown period
    later. Measured without rounding the two times are then at least a
    cooldown period apart when their subtraction is exact, and more than
    the period less a second apart in any case (for a period of less than
    53 bits). *)
Theorem alerts_at_least_cooldown_apart (env : Env) (bot : Bot) (st : State)
    (t1 t2 : Q) :
  monotone_clock env ->
  last_alert_time st = Some t1 ->
  last_alert_time (snd (cycle env bot st)) = Some t2 ->
  t2 = t1 \/
  (cooled_down bot t2 t1 = true /\
   (exact_difference t2 t1 = true ->
      (inject_Z (cooldown_period bot) <= t2 - t1)%Q) /\
   ((Z.abs (cooldown_period bot - 1) < 2 ^ 53)%Z ->
      (inject_Z (cooldown_period bot) - 1 < t2 - t1)%Q)).
Proof.
  intros Hmono Hlast Hlast'.
  assert (Hsp : spaced env bot t1 (snd (poll env bot st))).
  { pose proof (framed_get_current_price env bot st) as [Fl Fc _].
    assert (H1 : spaced env bot t1 (snd (get_current_price env bot st))).
    { left. congruence. }
    unfold poll. unfold bind at 1.
    destruct (get_current_price env bot st) as [[[md |] | e] s1]; simpl in *;
      try exact H1.
    unfold bind at 1.
    destruct (format_f (md_price md)) as [e | price]; simpl; [exact H1 |].
    rewrite bind_logging.
    apply check_conditions_spaced; [exact Hmono |].
    apply (spaced_frame env bot t1 s1); simpl; [reflexivity | lia | exact H1]. }
  destruct (cycle_facts env bot st) as (_ & C1 & _).
  rewrite C1 in Hlast'.
  destruct Hsp as [H | (j & _ & H & Hw)]; rewrite H in Hlast';
    injection Hlast' as <-; [left; reflexivity | right].
  split; [exact Hw | split].
  - intros E. rewrite (cooled_down_exact _ _ _ E) in Hw.
    apply Qle_bool_iff in Hw. exact Hw.
  - intros HW.
    destruct (Qlt_le_dec (inject_Z (cooldown_period bot) - 1) (clock env j - t1))
      as [Hlt | Hle]; [exact Hlt |].
    rewrite (cooled_down_lt _ _ _ HW Hle) in Hw. discriminate Hw.
Qed.

Lemma alerts_at_least_cooldown_apart_witness :
  (1400 # 1) = (1000 # 1) \/
  (cooled_down (pepe_bot ["sound"] 300) (1400 # 1) (1000 # 1) = true /\
   (inject_Z (cooldown_period (pepe_bot ["sound"] 300))
    <= (1400 # 1) - (1000 # 1))%Q).
Proof.
  destruct (alerts_at_least_cooldown_apart (frozen_clock_env (1400 # 1))
              (pepe_bot ["sound"] 300) (alerted_state (1000 # 1))
              (1000 # 1) (1400 # 1)) as [H | (H1 & H2 & _)].
  - intros i j Hij. apply Qle_refl.
  - reflexivity.
  - vm_compute. reflexivity.
  - left. exact H.
  - right. split; [exact H1 |]. apply H2. vm_compute. reflexivity.
Defined.
